(** * stravan-lyzer: the activity dashboard's data pipeline

    A shallow embedding of [dashboard.py]: the loader [load_data], the
    year and activity-type filter, the scalar summary, the monthly and
    cumulative series, the breakdown table and the recent-activity view.

    A data frame is kept the way the script handles it: an index of
    activity dates and a dictionary from column names to columns of cells.

    Numbers.  A float64 cell is an exact rational or one of the three
    special values NaN, +inf, -inf.  The special values follow IEEE 754;
    rounding error, overflow and the sign of zero are outside the model.
    An int64 column is a column of integral rationals.  The one place
    where rounding decides a statement, the comparison of [cumsum] with
    [sum], has both summations on binary64 numbers as well, in
    [Float64]. *)

From Stdlib Require Import QArith Qcanon Qround ZArith List Sorting.Permutation Sorting.Sorted.
From Stdlib Require Import Floats.SpecFloat.
From stdpp Require Import gmap strings list fin_maps pretty sorting.

Local Open Scope Z_scope.

(** ** Numbers *)

Module Number.

Inductive num : Type :=
  | NaN
  | PInf
  | NInf
  | Fin (q : Qc).

Definition zero : num := Fin 0%Qc.
Definition of_Z (z : Z) : num := Fin (Qc_of_Z z).
Definition of_Q (q : Q) : num := Fin (Q2Qc q).

Definition Qc_ltb (x y : Qc) : bool := bool_decide (x < y)%Qc.
Definition Qc_eqb (x y : Qc) : bool := bool_decide (x = y).

Definition is_nan (x : num) : bool :=
  match x with NaN => true | _ => false end.

Definition is_inf (x : num) : bool :=
  match x with PInf | NInf => true | _ => false end.

Definition is_finite (x : num) : bool :=
  match x with Fin _ => true | _ => false end.

(** [x == y] on floats: NaN equals nothing, itself included. *)
Definition eqb (x y : num) : bool :=
  match x, y with
  | Fin a, Fin b => Qc_eqb a b
  | PInf, PInf | NInf, NInf => true
  | _, _ => false
  end.

(** [x < y] on floats: false as soon as one side is NaN. *)
Definition ltb (x y : num) : bool :=
  match x, y with
  | NaN, _ | _, NaN => false
  | NInf, NInf => false
  | NInf, _ => true
  | _, NInf => false
  | PInf, _ => false
  | Fin _, PInf => true
  | Fin a, Fin b => Qc_ltb a b
  end.

Definition gtb (x y : num) : bool := ltb y x.
Definition leb (x y : num) : bool := ltb x y || eqb x y.

Definition opp (x : num) : num :=
  match x with
  | NaN => NaN
  | PInf => NInf
  | NInf => PInf
  | Fin a => Fin (- a)%Qc
  end.

Definition add (x y : num) : num :=
  match x, y with
  | NaN, _ | _, NaN => NaN
  | PInf, NInf | NInf, PInf => NaN
  | PInf, _ | _, PInf => PInf
  | NInf, _ | _, NInf => NInf
  | Fin a, Fin b => Fin (a + b)%Qc
  end.

(** The sign of a finite number, as a comparison with zero. *)
Definition sgn (a : Qc) : comparison := (a ?= 0)%Qc.

Definition inf_of (c : comparison) : num :=
  match c with Lt => NInf | Gt => PInf | Eq => NaN end.

Definition mul (x y : num) : num :=
  match x, y with
  | NaN, _ | _, NaN => NaN
  | Fin a, Fin b => Fin (a * b)%Qc
  | PInf, PInf | NInf, NInf => PInf
  | PInf, NInf | NInf, PInf => NInf
  | PInf, Fin a | Fin a, PInf => inf_of (sgn a)
  | NInf, Fin a | Fin a, NInf => inf_of (CompOpp (sgn a))
  end.

(** Float division: a finite quotient, an infinity for a non-zero number
    over zero, NaN for 0/0 and inf/inf. *)
Definition div (x y : num) : num :=
  match x, y with
  | NaN, _ | _, NaN => NaN
  | Fin a, Fin b =>
      if Qc_eqb b 0 then inf_of (sgn a) else Fin (a / b)%Qc
  | Fin _, (PInf | NInf) => zero
  | (PInf | NInf), (PInf | NInf) => NaN
  | PInf, Fin b => match sgn b with Lt => NInf | _ => PInf end
  | NInf, Fin b => match sgn b with Lt => PInf | _ => NInf end
  end.

Definition abs (x : num) : num :=
  match x with
  | NaN => NaN
  | PInf | NInf => PInf
  | Fin a => Fin (if Qc_ltb a 0 then - a else a)%Qc
  end.

(** Round half to even, the rule of [numpy.rint]. *)
Definition rint (a : Qc) : Z :=
  let f := Qfloor a in
  let r := (a - Qc_of_Z f)%Qc in
  let half := Q2Qc (1 # 2) in
  if Qc_ltb r half then f
  else if Qc_ltb half r then f + 1
  else if Z.even f then f else f + 1.

(** [numpy.round(x, 1)]: scale by ten, round to an integer, scale back. *)
Definition round1 (x : num) : num :=
  match x with
  | Fin a => Fin (Qc_of_Z (rint (a * Qc_of_Z 10)%Qc) / Qc_of_Z 10)%Qc
  | _ => x
  end.

End Number.

Export Number.

(** ** Activity dates

    [pd.to_datetime] turns the ['Activity Date'] column into timestamps
    and [set_index] makes them the index.  The model starts there: a date
    is its civil fields, and a file whose dates do not parse gives no
    frame at all. *)

Module Calendar.

Record datetime : Type := mkDate {
  dt_year : Z;
  dt_month : Z;
  dt_day : Z;
  dt_hour : Z;
  dt_minute : Z;
  dt_second : Z
}.

(** Months since year 0: the bucket [resample('M')] puts a date in. *)
Definition month_index (d : datetime) : Z :=
  dt_year d * 12 + (dt_month d - 1).

(** The sort key of a date: chronological order on valid dates. *)
Definition dt_key (d : datetime) : Z :=
  ((((month_index d * 31 + (dt_day d - 1)) * 24 + dt_hour d) * 60
    + dt_minute d) * 60) + dt_second d.

Definition month_names : list string :=
  ["January"; "February"; "March"; "April"; "May"; "June"; "July";
   "August"; "September"; "October"; "November"; "December"]%string.

Definition day_names : list string :=
  ["Monday"; "Tuesday"; "Wednesday"; "Thursday"; "Friday"; "Saturday";
   "Sunday"]%string.

Definition month_name (d : datetime) : string :=
  default ""%string (month_names !! Z.to_nat (dt_month d - 1)).

(** Days since 1970-01-01 in the proleptic Gregorian calendar. *)
Definition days_from_civil (y m d : Z) : Z :=
  let y' := if m <=? 2 then y - 1 else y in
  let era := y' / 400 in
  let yoe := y' - era * 400 in
  let mp := if 2 <? m then m - 3 else m + 9 in
  let doy := (153 * mp + 2) / 5 + d - 1 in
  let doe := yoe * 365 + yoe / 4 - yoe / 100 + doy in
  era * 146097 + doe - 719468.

(** Monday is 0, as in [DatetimeIndex.dayofweek]. *)
Definition weekday (d : datetime) : Z :=
  (days_from_civil (dt_year d) (dt_month d) (dt_day d) + 3) mod 7.

Definition day_name (d : datetime) : string :=
  default ""%string (day_names !! Z.to_nat (weekday d)).

Definition pad2 (z : Z) : string :=
  if z <? 10 then ("0" +:+ pretty z)%string else pretty z.

(** [strftime('%Y-%m')] of the month bucket [m]. *)
Definition strftime_Ym (m : Z) : string :=
  (pretty (m / 12) +:+ "-" +:+ pad2 (m mod 12 + 1))%string.

End Calendar.

Export Calendar.

(** ** Cells, columns and frames *)

Inductive cell : Type :=
  | Num (x : num)
  | Str (s : string).

Definition is_num (c : cell) : bool :=
  match c with Num _ => true | Str _ => false end.

(** What [isna] answers on a cell; a missing CSV field is read as NaN. *)
Definition cell_isna (c : cell) : bool :=
  match c with Num x => is_nan x | Str _ => false end.

Definition cell_isinf (c : cell) : bool :=
  match c with Num x => is_inf x | Str _ => false end.

(** [a == b] between two cells. *)
Definition cell_eqb (a b : cell) : bool :=
  match a, b with
  | Num x, Num y => Number.eqb x y
  | Str s, Str t => bool_decide (s = t)
  | _, _ => false
  end.

(** Arithmetic and ordering between a text and a number raise
    [TypeError]: the result is [None]. *)
Definition cell_div (a b : cell) : option cell :=
  match a, b with
  | Num x, Num y => Some (Num (Number.div x y))
  | _, _ => None
  end.

Definition cell_mul (a b : cell) : option cell :=
  match a, b with
  | Num x, Num y => Some (Num (Number.mul x y))
  | _, _ => None
  end.

Definition cell_gt (a : cell) (y : num) : option bool :=
  match a with
  | Num x => Some (Number.gtb x y)
  | Str _ => None
  end.

Record frame : Type := mkFrame {
  index : list datetime;
  columns : gmap string (list cell)
}.

Definition nrows (df : frame) : nat := length (index df).

(** [df[c]]: [None] stands for [KeyError]. *)
Definition get (c : string) (df : frame) : option (list cell) :=
  columns df !! c.

(** [c in df.columns]. *)
Definition has (c : string) (df : frame) : bool :=
  bool_decide (is_Some (columns df !! c)).

(** [df[c] = col]. *)
Definition set (c : string) (col : list cell) (df : frame) : frame :=
  mkFrame (index df) (<[c := col]> (columns df)).

(** [df[c] = x] with a scalar [x]: one copy per row. *)
Definition broadcast (df : frame) (x : cell) : list cell :=
  replicate (nrows df) x.

(** [df.empty]: no rows, or no columns. *)
Definition empty (df : frame) : bool :=
  bool_decide (nrows df = 0%nat) || bool_decide (columns df = ∅).

(** Boolean-mask selection [s[mask]]. *)
Fixpoint select {A : Type} (mask : list bool) (l : list A) : list A :=
  match mask, l with
  | b :: mask', x :: l' =>
      if b then x :: select mask' l' else select mask' l'
  | _, _ => []
  end.

Definition select_rows (mask : list bool) (df : frame) : frame :=
  mkFrame (select mask (index df)) (select mask <$> columns df).

(** [take]: the rows at the positions of an indexer, in its order. *)
Definition gather {A : Type} (idx : list nat) (l : list A) : list A :=
  omap (λ i, l !! i) idx.

Definition take_rows (idx : list nat) (df : frame) : frame :=
  mkFrame (gather idx (index df)) (gather idx <$> columns df).

(** [head(n)]. *)
Definition head (n : nat) (df : frame) : frame :=
  mkFrame (take n (index df)) (take n <$> columns df).

(** ** Sorting by the index

    [sort_index] is called with pandas' default [kind='quicksort'], which
    promises a sorted permutation and nothing about rows whose dates are
    equal.  The pipeline is therefore stated over any sorting routine
    that meets this contract. *)

Definition key_order (ascending : bool) : Z → Z → Prop :=
  if ascending then Z.le else Z.ge.

Class IndexSort : Type := {
  argsort : bool → list Z → list nat;
  argsort_perm : ∀ ascending ks,
    Permutation (argsort ascending ks) (seq 0 (length ks));
  argsort_sorted : ∀ ascending ks,
    StronglySorted (key_order ascending) (gather (argsort ascending ks) ks)
}.

Definition sort_index `{IndexSort} (ascending : bool) (df : frame) : frame :=
  take_rows (argsort ascending (dt_key <$> index df)) df.

(** ** Sorting by a column of numbers

    [sort_values] too is called with the default kind: what it promises
    is a sorted permutation with the missing values last, and nothing
    about rows whose values are equal. *)

Definition value_leb (ascending : bool) (a b : num) : bool :=
  if is_nan b then true
  else if is_nan a then false
  else if ascending then Number.leb a b else Number.leb b a.

Definition value_order (ascending : bool) (a b : num) : Prop :=
  value_leb ascending a b = true.

Class ValueSort : Type := {
  argsort_values : bool → list num → list nat;
  argsort_values_perm : ∀ ascending xs,
    Permutation (argsort_values ascending xs) (seq 0 (length xs));
  argsort_values_sorted : ∀ ascending xs,
    StronglySorted (value_order ascending)
      (gather (argsort_values ascending xs) xs)
}.

(** ** Series operations *)

Global Instance num_eq_dec : EqDecision num.
Proof. solve_decision. Defined.

Global Instance cell_eq_dec : EqDecision cell.
Proof. solve_decision. Defined.

(** [s / k] and [s * k] on a whole column. *)
Definition series_div (col : list cell) (k : num) : option (list cell) :=
  mapM (λ c, cell_div c (Num k)) col.

Definition series_mul (col : list cell) (k : num) : option (list cell) :=
  mapM (λ c, cell_mul c (Num k)) col.

(** [s > k], a boolean mask. *)
Definition series_gt (col : list cell) (k : num) : option (list bool) :=
  mapM (λ c, cell_gt c k) col.

(** [fillna(0)] and [replace([np.inf, -np.inf], 0)] on one cell. *)
Definition fillna0 (c : cell) : cell :=
  if cell_isna c then Num zero else c.

Definition replace_inf (c : cell) : cell :=
  if cell_isinf c then Num zero else c.

(** The same on a whole column. *)
Definition fillna_col (col : list cell) : list cell := fillna0 <$> col.

Definition replace_col (col : list cell) : list cell := replace_inf <$> col.

(** [s.sum()]: NaN is skipped, the empty sum is 0.  A text cell leaves no
    number behind (a text or a [TypeError]): [None]. *)
Fixpoint sum_from (acc : num) (col : list cell) : option num :=
  match col with
  | [] => Some acc
  | Num x :: rest =>
      sum_from (if is_nan x then acc else Number.add acc x) rest
  | Str _ :: _ => None
  end.

Definition series_sum (col : list cell) : option num := sum_from zero col.

(** [s.count()]: the cells that are not NaN. *)
Definition series_count (col : list cell) : nat :=
  length (filter (λ c, cell_isna c = false) col).

(** [s.mean()]: the sum over the count of the cells that are not NaN;
    with none of them this is 0/0, that is NaN. *)
Definition series_mean (col : list cell) : option num :=
  s ← series_sum col;
  Some (Number.div s (of_Z (Z.of_nat (series_count col)))).

(** [s.cumsum()]: a NaN cell stays NaN and leaves the running sum as it
    is. *)
Fixpoint cumsum_from (acc : num) (col : list cell) : option (list cell) :=
  match col with
  | [] => Some []
  | Num x :: rest =>
      if is_nan x then (Num NaN ::.) <$> cumsum_from acc rest
      else (Num (Number.add acc x) ::.) <$> cumsum_from (Number.add acc x) rest
  | Str _ :: _ => None
  end.

Definition cumsum (col : list cell) : option (list cell) :=
  cumsum_from zero col.

(** [DataFrame.round]: only a numeric column is rounded. *)
Definition round_cell (r : num → num) (c : cell) : cell :=
  match c with Num x => Num (r x) | Str _ => c end.

Definition round_col (r : num → num) (col : list cell) : list cell :=
  if forallb is_num col then round_cell r <$> col else col.

Definition round0 (x : num) : num :=
  match x with
  | Fin a => of_Z (rint a)
  | _ => x
  end.

(** ** Binary64 sums

    Everywhere else a number is an exact rational.  How the script adds
    a column up matters to one claim, which compares the last value of
    [cumsum] with [sum]: [cumsum] adds the cells one after the other,
    [sum] adds them in numpy's pairwise order, and in binary64 the two
    results need not be the same number.  This module gives both
    summations on binary64 numbers, with the arithmetic of the Standard
    Library's [SpecFloat] (round to nearest, ties to even). *)

Module Float64.

Definition prec : Z := 53.
Definition emax : Z := 1024.

Definition f64 : Type := spec_float.

Definition zero : f64 := S754_zero false.
Definition nan : f64 := S754_nan.
Definition add : f64 → f64 → f64 := SFadd prec emax.
Definition div : f64 → f64 → f64 := SFdiv prec emax.
Definition eqb : f64 → f64 → bool := SFeqb.
Definition ltb : f64 → f64 → bool := SFltb.
Definition leb : f64 → f64 → bool := SFleb.

(** The binary64 number nearest to an integer. *)
Definition of_Z (z : Z) : f64 := binary_normalize prec emax z 0 false.

Definition is_nan (x : f64) : bool :=
  match x with S754_nan => true | _ => false end.

(** A missing value counts as 0 in both summations. *)
Definition fill (x : f64) : f64 := if is_nan x then zero else x.

(** [numpy.cumsum]: the first cell as it is, then each cell added to the
    sum before it. *)
Fixpoint accumulate (acc : f64) (xs : list f64) : list f64 :=
  match xs with
  | [] => []
  | x :: rest => add acc x :: accumulate (add acc x) rest
  end.

Definition np_cumsum (xs : list f64) : list f64 :=
  match xs with
  | [] => []
  | x :: rest => x :: accumulate x rest
  end.

(** [Series.cumsum()]: the running sum over the filled cells; a missing
    cell stays missing. *)
Definition cumsum (xs : list f64) : list f64 :=
  zip_with (λ x c, if is_nan x then nan else c) xs (np_cumsum (fill <$> xs)).







End Float64.

(** ** The loader: [load_data] *)

Section Pipeline.

Context `{IndexSort}.

Definition key_cols : list string :=
  ["Distance_km"; "Moving_Time_hr"; "Elevation_Gain_m";
   "Average_Speed_kmh"; "Calories"]%string.

(** Lines 28-31: the time components of the index. *)
Definition add_time_components (df : frame) : frame :=
  let ix := index df in
  set "Hour of Day" ((λ d, Num (of_Z (dt_hour d))) <$> ix)
    (set "Day of Week" ((λ d, Str (day_name d)) <$> ix)
      (set "Month" ((λ d, Str (month_name d)) <$> ix)
        (set "Year" ((λ d, Num (of_Z (dt_year d))) <$> ix) df))).

(** Lines 37-42. *)
Definition derive_distance (df : frame) : option frame :=
  if has "Distance.1" df then
    col ← get "Distance.1" df;
    km ← series_div col (of_Z 1000);
    Some (set "Distance_km" km df)
  else if has "Distance" df then
    col ← get "Distance" df;
    Some (set "Distance_km" col df)
  else Some (set "Distance_km" (broadcast df (Num zero)) df).

(** Lines 45-48. *)
Definition derive_time (df : frame) : option frame :=
  if has "Moving Time" df then
    col ← get "Moving Time" df;
    hr ← series_div col (of_Z 3600);
    Some (set "Moving_Time_hr" hr df)
  else Some (set "Moving_Time_hr" (broadcast df (Num zero)) df).

(** Lines 51-56. *)
Definition derive_elevation (df : frame) : option frame :=
  if has "Total Elevation Gain" df then
    col ← get "Total Elevation Gain" df;
    Some (set "Elevation_Gain_m" col df)
  else if has "Elevation Gain" df then
    col ← get "Elevation Gain" df;
    Some (set "Elevation_Gain_m" col df)
  else Some (set "Elevation_Gain_m" (broadcast df (Num zero)) df).

(** The lambda of line 66, on the two cells of a row it reads. *)
Definition speed_of_row (d t : cell) : option cell :=
  match cell_gt t zero with
  | Some true => cell_div d t
  | Some false => Some (Num zero)
  | None => None
  end.

(** Lines 59-70. *)
Definition derive_speed (df : frame) : option frame :=
  if has "Average Speed" df then
    col ← get "Average Speed" df;
    kmh ← series_mul col (of_Q (36 # 10));
    Some (set "Average_Speed_kmh" kmh df)
  else if has "Distance_km" df && has "Moving_Time_hr" df then
    dist ← get "Distance_km" df;
    time ← get "Moving_Time_hr" df;
    kmh ← mapM (λ dt, speed_of_row dt.1 dt.2) (zip dist time);
    Some (set "Average_Speed_kmh" kmh df)
  else Some (set "Average_Speed_kmh" (broadcast df (Num zero)) df).

(** Lines 73-74. *)
Definition derive_calories (df : frame) : frame :=
  if has "Calories" df then df
  else set "Calories" (broadcast df (Num zero)) df.

(** Lines 23-74: everything before the clean-up. *)
Definition derive_metrics (df0 : frame) : option frame :=
  let df := add_time_components (sort_index true df0) in
  df ← derive_distance df;
  df ← derive_time df;
  df ← derive_elevation df;
  df ← derive_speed df;
  Some (derive_calories df).

(** Lines 77-79: [df[col] = df[col].fillna(0)] for each key column. *)
Fixpoint fillna_cols (cs : list string) (df : frame) : option frame :=
  match cs with
  | [] => Some df
  | c :: cs' =>
      col ← get c df;
      fillna_cols cs' (set c (fillna_col col) df)
  end.

(** Line 82: [df.replace([np.inf, -np.inf], 0, inplace=True)]. *)
Definition replace_infs (df : frame) : frame :=
  mkFrame (index df) (replace_col <$> columns df).

Definition load_data (df0 : frame) : option frame :=
  df ← derive_metrics df0;
  df ← fillna_cols key_cols df;
  Some (replace_infs df).

End Pipeline.

(** ** The sidebar filters

    The two widgets are the presentation layer; the values they return,
    [selected_year] and [selected_types], are the inputs of the model.
    The option lists of the widgets are computed by the script itself
    (lines 92 and 106) and are part of it: computing them can raise. *)

Definition is_str (c : cell) : bool :=
  match c with Str _ => true | Num _ => false end.

(** The order of [sorted] and of the keys of [groupby]: numbers in their
    order, texts in theirs; [groupby] puts numbers before texts, [sorted]
    never gets to compare the two. *)
Definition cell_leb (a b : cell) : bool :=
  match a, b with
  | Num x, Num y => Number.leb x y
  | Num _, Str _ => true
  | Str _, Num _ => false
  | Str s, Str t => String.leb s t
  end.

Fixpoint insert_key (k : cell) (ks : list cell) : list cell :=
  match ks with
  | [] => [k]
  | k' :: rest =>
      if cell_leb k k' then k :: ks else k' :: insert_key k rest
  end.

(** [Series.unique()]: the distinct values in the order they first
    appear; a missing value is one of them. *)
Fixpoint unique (col : list cell) : list cell :=
  match col with
  | [] => []
  | c :: rest => c :: filter (λ x, x ≠ c) (unique rest)
  end.

(** [sorted(values)] compares the values with [<].  Between a text and a
    number (a missing value is the number NaN) that raises [TypeError],
    and a list that holds both cannot be sorted without such a
    comparison: the result is [None].  The order found for numbers with a
    NaN among them depends on Python's algorithm; the option lists are
    shown by the widgets only and no statement rests on their order. *)
Definition sorted (values : list cell) : option (list cell) :=
  if forallb is_num values || forallb is_str values
  then Some (foldr insert_key [] values)
  else None.

Inductive year_choice : Type :=
  | AllYears
  | OneYear (y : Z).

Definition all_activities : string := "All Activities".

(** Line 92. *)
Definition all_years (df : frame) : option (list cell) :=
  years ← get "Year" df;
  options ← sorted (unique years);
  Some (Str "All Years" :: reverse options).

(** Lines 100-103. *)
Definition filter_year (df : frame) (selected_year : year_choice)
    : option frame :=
  match selected_year with
  | AllYears => Some df
  | OneYear y =>
      years ← get "Year" df;
      Some (select_rows ((λ c, cell_eqb c (Num (of_Z y))) <$> years) df)
  end.

(** Line 106, on the table already filtered by year. *)
Definition all_types (df : frame) : option (list cell) :=
  types ← get "Activity Type" df;
  options ← sorted (unique types);
  Some (Str all_activities :: options).

(** [isin(selected_types)] on one cell. *)
Definition isin (values : list string) (c : cell) : bool :=
  match c with
  | Str s => bool_decide (s ∈ values)
  | Num _ => false
  end.

(** Lines 114-118. *)
Definition filter_types (df : frame) (selected_types : list string)
    : option frame :=
  if bool_decide (all_activities ∈ selected_types)
     || bool_decide (selected_types = [])
  then Some df
  else
    types ← get "Activity Type" df;
    Some (select_rows (isin selected_types <$> types) df).

(** Lines 100-118: the year filter, the options of the type widget, the
    type filter. *)
Definition df_filtered (df : frame) (selected_year : year_choice)
    (selected_types : list string) : option frame :=
  by_year ← filter_year df selected_year;
  options ← all_types by_year;
  filter_types by_year selected_types.

(** ** Top-level metrics, lines 130-140 *)

Definition total_activities (df : frame) : nat := nrows df.

Definition total_of (c : string) (df : frame) : option num :=
  col ← get c df;
  series_sum col.

Definition total_distance : frame → option num := total_of "Distance_km".
Definition total_time : frame → option num := total_of "Moving_Time_hr".
Definition total_elevation : frame → option num := total_of "Elevation_Gain_m".
Definition total_calories : frame → option num := total_of "Calories".

(** [total / total_activities if total_activities > 0 else 0]. *)
Definition per_activity (total : num) (n : nat) : num :=
  if bool_decide (0 < n)%nat then Number.div total (of_Z (Z.of_nat n))
  else zero.

Definition avg_distance (df : frame) : option num :=
  total ← total_distance df;
  Some (per_activity total (total_activities df)).

Definition avg_time (df : frame) : option num :=
  total ← total_time df;
  Some (per_activity total (total_activities df)).

(** Line 140:
    [df_filtered[df_filtered['Average_Speed_kmh'] > 0]['Average_Speed_kmh'].mean()]. *)
Definition avg_speed (df : frame) : option num :=
  speeds ← get "Average_Speed_kmh" df;
  mask ← series_gt speeds zero;
  moving ← get "Average_Speed_kmh" (select_rows mask df);
  series_mean moving.

Record kpis : Type := mkKpis {
  k_activities : nat;
  k_distance : num;
  k_time : num;
  k_elevation : num;
  k_calories : num;
  k_avg_distance : num;
  k_avg_time : num;
  k_avg_speed : num
}.

Definition top_level_metrics (df : frame) : option kpis :=
  d ← total_distance df;
  t ← total_time df;
  e ← total_elevation df;
  c ← total_calories df;
  s ← avg_speed df;
  Some (mkKpis (total_activities df) d t e c
          (per_activity d (total_activities df))
          (per_activity t (total_activities df)) s).

(** ** Grouping by activity type *)

(** The keys of [groupby]: the distinct values, sorted; rows whose key
    is missing belong to no group. *)
Definition group_keys (col : list cell) : list cell :=
  foldr insert_key []
    (remove_dups (filter (λ c, cell_isna c = false) col)).

(** The rows of one group. *)
Definition group_rows (c : string) (k : cell) (df : frame) : option frame :=
  col ← get c df;
  Some (select_rows ((λ x, cell_eqb x k) <$> col) df).

(** ** Distance per month by activity type, lines 163-164 *)

(** The bins of [resample('M')]: every calendar month from the first to
    the last month of the index. *)
Definition month_range (months : list Z) : list Z :=
  match months with
  | [] => []
  | m :: rest =>
      let lo := foldr Z.min m rest in
      let hi := foldr Z.max m rest in
      seqZ lo (hi - lo + 1)
  end.

(** [resample('M')[c].sum()]: one sum per bin; an empty bin sums to 0. *)
Definition resample_M_sum (c : string) (df : frame)
    : option (list (Z * num)) :=
  col ← get c df;
  let months := month_index <$> index df in
  mapM (λ m,
          s ← series_sum (select ((λ x, bool_decide (x = m)) <$> months) col);
          Some (m, s))
       (month_range months).

Record monthly_row : Type := mkMonthly {
  mr_type : cell;
  mr_month : Z;
  mr_distance : num
}.

(** The ['Activity Date'] column after line 164. *)
Definition mr_label (r : monthly_row) : string := strftime_Ym (mr_month r).

Definition monthly_of_type (df : frame) (k : cell)
    : option (list monthly_row) :=
  g ← group_rows "Activity Type" k df;
  bins ← resample_M_sum "Distance_km" g;
  Some ((λ b : Z * num, mkMonthly k b.1 b.2) <$> (bins : list (Z * num))).

Definition df_monthly_typed (df : frame) : option (list monthly_row) :=
  types ← get "Activity Type" df;
  rows ← mapM (monthly_of_type df) (group_keys types);
  Some (concat rows).

(** ** Breakdown by activity type, lines 272-284 *)

Record summary_row : Type := mkSummary {
  sr_type : cell;
  Total_Activities : nat;
  Total_Distance_km : num;
  Total_Time_hr : num;
  Total_Elevation_m : num;
  Avg_Speed_kmh : num
}.

(** [lambda x: x[x > 0].mean()], line 277. *)
Definition positive_mean (col : list cell) : option num :=
  mask ← series_gt col zero;
  series_mean (select mask col).

(** The aggregates of one group, lines 272-277. *)
Definition summary_of_type (df : frame) (k : cell) : option summary_row :=
  g ← group_rows "Activity Type" k df;
  d ← total_distance g;
  t ← total_time g;
  e ← total_elevation g;
  speeds ← get "Average_Speed_kmh" g;
  s ← positive_mean speeds;
  Some (mkSummary k (nrows g) d t e s).

(** [sort_values(by='Total_Distance_km', ascending=False)], line 278. *)
Definition sort_values {V : ValueSort} (ascending : bool)
    (rows : list summary_row) : list summary_row :=
  gather (argsort_values ascending (Total_Distance_km <$> rows)) rows.

(** The rounding for display, lines 281-284; the average speed goes
    through [fillna(0)] first. *)
Definition format_summary (r : summary_row) : summary_row :=
  mkSummary (sr_type r) (Total_Activities r)
    (round1 (Total_Distance_km r)) (round1 (Total_Time_hr r))
    (round0 (Total_Elevation_m r))
    (round1 (if is_nan (Avg_Speed_kmh r) then zero else Avg_Speed_kmh r)).

Definition df_summary {V : ValueSort} (df : frame)
    : option (list summary_row) :=
  types ← get "Activity Type" df;
  rows ← mapM (summary_of_type df) (group_keys types);
  Some (format_summary <$> sort_values false rows).

Section Views.

Context `{IndexSort} {V : ValueSort}.

(** ** Cumulative distance, lines 177-178 *)

Definition df_cumulative (df : frame) : option frame :=
  let by_date := sort_index true df in
  dist ← get "Distance_km" by_date;
  running ← cumsum dist;
  Some (set "Cumulative Distance" running by_date).

(** ** Recent activities, lines 291-296 *)

Definition recent_cols : list string :=
  ["Activity Name"; "Activity Type"; "Distance_km"; "Moving_Time_hr";
   "Average_Speed_kmh"; "Elevation_Gain_m"]%string.

Definition display_cols (df : frame) : list string :=
  filter (λ c, has c df = true) recent_cols.

(** [df[cols]], for columns that are all there. *)
Definition project (cols : list string) (df : frame) : frame :=
  mkFrame (index df)
    (filter (λ kv : string * list cell, kv.1 ∈ cols) (columns df)).

Definition round_frame (r : num → num) (df : frame) : frame :=
  mkFrame (index df) (round_col r <$> columns df).

Definition recent_activities (df : frame) : frame :=
  round_frame round1
    (head 20 (sort_index false (project (display_cols df) df))).

(** ** The script after the loader, lines 92-298

    [Stopped] is the warning followed by [st.stop()]; [None] is an
    uncaught exception.  Of the tabs, the monthly and the cumulative
    series, the breakdown table and the recent activities are embedded;
    the four pivot tables of the heat maps (lines 197-267) are not, so
    [Rendered] holds the views of the other three tabs and says nothing
    about the heat maps. *)

Inductive outcome : Type :=
  | Stopped
  | Rendered (k : kpis) (monthly : list monthly_row) (cumulative : frame)
      (summary : list summary_row) (recent : frame).

Definition dashboard (df : frame) (selected_year : year_choice)
    (selected_types : list string) : option outcome :=
  years ← all_years df;
  filtered ← df_filtered df selected_year selected_types;
  if empty filtered then Some Stopped
  else
    k ← top_level_metrics filtered;
    monthly ← df_monthly_typed filtered;
    cumulative ← df_cumulative filtered;
    summary ← df_summary filtered;
    Some (Rendered k monthly cumulative summary (recent_activities filtered)).

End Views.

(** ** Two sorting routines

    [nargsort] is pandas' routine with a stable kind: a descending sort
    reverses the keys, sorts them ascending and reverses the result, so
    that equal keys keep their order.  [mirror_argsort] sorts ascending
    and reverses: as good a descending sort, with equal keys the other
    way round. *)

Module Sorters.

Fixpoint insert_by (p : Z * nat) (l : list (Z * nat)) : list (Z * nat) :=
  match l with
  | [] => [p]
  | q :: rest =>
      if (p.1 <=? q.1) then p :: l else q :: insert_by p rest
  end.

Definition isort (l : list (Z * nat)) : list (Z * nat) :=
  foldr insert_by [] l.

Definition enumerate (ks : list Z) : list (Z * nat) :=
  zip ks (seq 0 (length ks)).

Definition nargsort (ascending : bool) (ks : list Z) : list nat :=
  if ascending then (isort (enumerate ks)).*2
  else rev (isort (rev (enumerate ks))).*2.

Definition mirror_argsort (ascending : bool) (ks : list Z) : list nat :=
  if ascending then (isort (enumerate ks)).*2
  else rev (isort (enumerate ks)).*2.

(** An insertion sort by value, for [sort_values]. *)
Fixpoint insert_value (ascending : bool) (p : num * nat)
    (l : list (num * nat)) : list (num * nat) :=
  match l with
  | [] => [p]
  | q :: rest =>
      if value_leb ascending p.1 q.1 then p :: l
      else q :: insert_value ascending p rest
  end.

Definition value_argsort (ascending : bool) (xs : list num) : list nat :=
  (foldr (insert_value ascending) [] (zip xs (seq 0 (length xs)))).*2.

End Sorters.

(** ** The vocabulary of the statements *)

(** Every column has one cell per row. *)
Definition well_formed (df : frame) : Prop :=
  map_Forall (λ _ (col : list cell), length col = nrows df) (columns df).

(** The columns lines 28-31 write. *)
Definition time_cols : list string :=
  ["Year"; "Month"; "Day of Week"; "Hour of Day"]%string.

(** What the clean-up of lines 77-82 does to one cell of a key column. *)
Definition clean (c : cell) : cell := replace_inf (fillna0 c).

Definition clean_col (col : list cell) : list cell := clean <$> col.



(** The magnitude of a cell, in the words of the specification. *)
Definition magnitude (c : cell) : cell :=
  match c with
  | Num x => Num (Number.abs x)
  | Str _ => c
  end.

(** The arithmetic mean of a list of numbers: their sum over their
    number. *)
Definition arithmetic_mean (xs : list num) : num :=
  Number.div (foldl Number.add zero xs) (of_Z (Z.of_nat (length xs))).

(** The numbers of a column that are greater than zero. *)
Definition positive_values (col : list cell) : list num :=
  omap (λ c, match c with
             | Num x => if Number.gtb x zero then Some x else None
             | Str _ => None
             end) col.


(** An indexer keeps rows with equal keys in the order of their
    positions. *)
Definition ties_in_row_order (ks : list Z) (idx : list nat) : Prop :=
  ∀ a b i j k, (a < b)%nat →
    idx !! a = Some i → idx !! b = Some j →
    ks !! i = Some k → ks !! j = Some k → (i < j)%nat.

(** A number with at most one decimal. *)
Definition one_decimal (x : num) : Prop :=
  ∃ z : Z, x = Fin (Qc_of_Z z / Qc_of_Z 10)%Qc.

(** The positions, in the filtered table, of the rows of the
    recent-activity view. *)
Definition recent_indexer `{IndexSort} (df : frame) : list nat :=
  take 20 (argsort false (dt_key <$> index df)).




(** Among pairs with equal keys the positions fall. *)
Definition ties_fall (p q : Z * nat) : Prop := p.1 = q.1 → (q.2 < p.2)%nat.

(** The source columns the loader computes with. *)
Definition source_cols : list string :=
  ["Distance.1"; "Distance"; "Moving Time"; "Average Speed"]%string.

(** Each of them, where the file has it, holds numbers only. *)
Definition numeric_sources (raw : frame) : Prop :=
  ∀ c col, c ∈ source_cols → get c raw = Some col →
    Forall (λ v, is_num v = true) col.







(** The type [k] has an activity in month [m]. *)
Definition active_month (df : frame) (types : list cell) (k : cell)
    (m : Z) : Prop :=
  ∃ i d, index df !! i = Some d ∧ types !! i = Some k ∧ month_index d = m.

(** The rows of type [k] in month [m], as a mask over the rows of the
    table. *)
Definition bucket_mask (df : frame) (types : list cell) (k : cell)
    (m : Z) : list bool :=
  zip_with andb ((λ t, bool_decide (t = k)) <$> types)
    ((λ d, bool_decide (month_index d = m)) <$> index df).


(** ** Sample inputs *)

(** Three activities as [read_csv] delivers them, not in date order, with
    a missing distance and infinities in two columns. *)
Definition sample_raw : frame :=
  mkFrame
    [mkDate 2023 1 20 9 0 0; mkDate 2023 1 5 18 30 0; mkDate 2024 2 1 7 0 0]
    (list_to_map
       [("Activity Name", [Str "Evening ride"; Str "Lunch run"; Str "Jog"]);
        ("Activity Type", [Str "Ride"; Str "Run"; Str "Run"]);
        ("Distance.1", [Num (of_Z 20000); Num (of_Z 5000); Num NaN]);
        ("Moving Time", [Num (of_Z 3600); Num (of_Z 0); Num (of_Z 3600)]);
        ("Total Elevation Gain", [Num (of_Z (-5)); Num PInf; Num (of_Z 7)]);
        ("Max Heart Rate", [Num NInf; Num NaN; Num (of_Z 171)])]%string).

(** One activity without movement: no distance, no moving time. *)
Definition idle_raw : frame :=
  mkFrame
    [mkDate 2024 3 9 8 0 0]
    (list_to_map
       [("Activity Name", [Str "Stretching"]);
        ("Activity Type", [Str "Workout"]);
        ("Distance.1", [Num (of_Z 0)]);
        ("Moving Time", [Num (of_Z 0)])]%string).



(** Twenty-one runs: one a day from 1 to 19 February 2024, and two more
    that start at the same time on 1 March. *)
Definition tied_raw : frame :=
  mkFrame
    (((λ d, mkDate 2024 2 (Z.of_nat d) 7 0 0) <$> seq 1 19)
     ++ [mkDate 2024 3 1 7 0 0; mkDate 2024 3 1 7 0 0])
    (list_to_map
       [("Activity Name",
         (replicate 19 (Str "Daily run") ++ [Str "First"; Str "Second"])%list);
        ("Activity Type", replicate 21 (Str "Run"));
        ("Distance.1", replicate 21 (Num (of_Z 5250)));
        ("Moving Time", replicate 21 (Num (of_Z 1800)))]%string).

(** One run with a type and one activity whose type is missing in the
    file. *)
Definition untyped_raw : frame :=
  mkFrame
    [mkDate 2024 4 2 7 0 0; mkDate 2024 4 3 7 0 0]
    (list_to_map
       [("Activity Name", [Str "Morning run"; Str "Untitled"]);
        ("Activity Type", [Str "Run"; Num NaN]);
        ("Distance.1", [Num (of_Z 4000); Num (of_Z 1000)]);
        ("Moving Time", [Num (of_Z 1500); Num (of_Z 600)])]%string).

(** ** More sample inputs *)

(** A file whose metres column holds a text. *)
Definition text_raw : frame :=
  mkFrame
    [mkDate 2024 5 1 6 30 0; mkDate 2024 5 2 6 30 0]
    (list_to_map
       [("Activity Name", [Str "Hill repeats"; Str "Easy run"]);
        ("Activity Type", [Str "Run"; Str "Run"]);
        ("Distance.1", [Str "8,000"; Num (of_Z 5000)]);
        ("Moving Time", [Num (of_Z 2700); Num (of_Z 1800)])]%string).

(** A file with a provided speed, a kilometre column next to the metre
    column, and calories; its first row has no moving time. *)
Definition speed_raw : frame :=
  mkFrame
    [mkDate 2024 6 1 18 0 0; mkDate 2024 6 3 18 0 0]
    (list_to_map
       [("Activity Name", [Str "Track"; Str "Commute"]);
        ("Activity Type", [Str "Run"; Str "Ride"]);
        ("Distance", [Num (of_Q (99 # 10)); Num (of_Z 12)]);
        ("Distance.1", [Num (of_Z 3000); Num (of_Z 12000)]);
        ("Moving Time", [Num (of_Z 0); Num (of_Z 2400)]);
        ("Average Speed", [Num (of_Q (25 # 10)); Num (of_Z 5)]);
        ("Calories", [Num NaN; Num (of_Z 310)])]%string).


(** * Facts about the frame operations *)

Section GatherFacts.
Context {A : Type}.
Implicit Types (l : list A) (idx : list nat).

Lemma gather_nil l : gather [] l = [].
Proof. reflexivity. Qed.

Lemma gather_cons_Some i idx l x :
  l !! i = Some x → gather (i :: idx) l = x :: gather idx l.
Proof. intros Hx. unfold gather. simpl. by rewrite Hx. Qed.

Lemma gather_in_range idx l :
  Forall (λ i, (i < length l)%nat) idx → length (gather idx l) = length idx.
Proof.
  induction 1 as [|i idx Hi _ IH]; [done|].
  destruct (lookup_lt_is_Some_2 l i Hi) as [x Hx].
  rewrite (gather_cons_Some _ _ _ _ Hx). simpl. by rewrite IH.
Qed.

Lemma gather_seq l : gather (seq 0 (length l)) l = l.
Proof.
  unfold gather.
  induction l as [|x l IH] using rev_ind; [done|].
  rewrite length_app, Nat.add_1_r, seq_S, omap_app. simpl.
  rewrite lookup_app_r, Nat.sub_diag by lia. simpl.
  rewrite <- IH at 2. f_equal.
  apply list_omap_ext. apply Forall2_same_length_lookup_2; [done|].
  intros i a b Ha Hb. assert (a = b) by congruence. subst b.
  apply lookup_seq in Ha as [-> Hlt]. simpl.
  by rewrite lookup_app_l.
Qed.

Lemma gather_perm idx idx' l :
  Permutation idx idx' → Permutation (gather idx l) (gather idx' l).
Proof.
  unfold gather. induction 1; simpl.
  - done.
  - destruct (l !! x); [by constructor|done].
  - destruct (l !! x), (l !! y); try done. apply perm_swap.
  - etrans; eauto.
Qed.

Lemma gather_argsort_perm idx l :
  Permutation idx (seq 0 (length l)) → Permutation (gather idx l) l.
Proof. intros Hp. rewrite (gather_perm _ _ _ Hp). by rewrite gather_seq. Qed.

Lemma gather_length_perm idx l :
  Permutation idx (seq 0 (length l)) → length (gather idx l) = length l.
Proof. intros Hp. by rewrite (gather_argsort_perm _ _ Hp). Qed.
End GatherFacts.

(** * The two sorting routines meet the contract *)

Import Sorters.

Section SorterFacts.
Implicit Types (p : Z * nat) (l : list (Z * nat)) (ks : list Z).

Lemma insert_by_perm p l : Permutation (insert_by p l) (p :: l).
Proof.
  induction l as [|q l IH]; simpl; [done|].
  destruct (p.1 <=? q.1); [done|].
  rewrite IH. apply perm_swap.
Qed.

Lemma isort_perm l : Permutation (isort l) l.
Proof.
  induction l as [|p l IH]; simpl; [done|].
  rewrite insert_by_perm. by constructor.
Qed.

Lemma insert_by_sorted p l :
  StronglySorted Z.le l.*1 → StronglySorted Z.le (insert_by p l).*1.
Proof.
  induction l as [|q l IH]; simpl; intros Hs.
  - repeat constructor.
  - apply StronglySorted_inv in Hs as [Hs Hq].
    destruct (Z.leb_spec p.1 q.1) as [Hle|Hgt]; simpl.
    + constructor; [by constructor|].
      constructor; [done|]. eapply Forall_impl; [exact Hq|]. simpl. lia.
    + constructor; [by apply IH|].
      rewrite (Permutation_map fst (insert_by_perm p l)). simpl.
      constructor; [lia|done].
Qed.

Lemma isort_sorted l : StronglySorted Z.le (isort l).*1.
Proof.
  induction l as [|p l IH]; simpl; [constructor|].
  by apply insert_by_sorted.
Qed.

Lemma enumerate_fst ks : (enumerate ks).*1 = ks.
Proof. unfold enumerate. apply fst_zip. by rewrite length_seq. Qed.

Lemma enumerate_snd ks : (enumerate ks).*2 = seq 0 (length ks).
Proof. unfold enumerate. apply snd_zip. by rewrite length_seq. Qed.

Lemma enumerate_lookup ks :
  Forall (λ p, ks !! p.2 = Some p.1) (enumerate ks).
Proof.
  apply Forall_lookup. intros i [k j] Hp.
  apply lookup_zip_Some in Hp as [Hk Hj]. simpl.
  apply lookup_seq in Hj as [-> _]. done.
Qed.

Lemma gather_pairs ks l :
  Forall (λ p, ks !! p.2 = Some p.1) l → gather l.*2 ks = l.*1.
Proof.
  induction 1 as [|p l Hp _ IH]; [done|].
  rewrite !fmap_cons, (gather_cons_Some _ _ _ _ Hp). by rewrite IH.
Qed.

Lemma sorted_rev (l : list Z) :
  StronglySorted Z.le l → StronglySorted Z.ge (rev l).
Proof.
  induction 1 as [|x l _ IH Hx]; simpl; [constructor|].
  apply StronglySorted_app_2; [|done|repeat constructor].
  intros a b Ha Hb. apply list_elem_of_singleton in Hb as ->.
  apply list_elem_of_In, in_rev, list_elem_of_In in Ha.
  rewrite Forall_forall in Hx. specialize (Hx a Ha). lia.
Qed.

Lemma nargsort_perm ascending ks :
  Permutation (nargsort ascending ks) (seq 0 (length ks)).
Proof.
  unfold nargsort. destruct ascending.
  - rewrite (Permutation_map snd (isort_perm _)). by rewrite enumerate_snd.
  - rewrite <- Permutation_rev.
    rewrite (Permutation_map snd (isort_perm _)).
    rewrite <- (Permutation_map snd (Permutation_rev _)).
    by rewrite enumerate_snd.
Qed.

Lemma mirror_argsort_perm ascending ks :
  Permutation (mirror_argsort ascending ks) (seq 0 (length ks)).
Proof.
  unfold mirror_argsort. destruct ascending.
  - rewrite (Permutation_map snd (isort_perm _)). by rewrite enumerate_snd.
  - rewrite <- Permutation_rev.
    rewrite (Permutation_map snd (isort_perm _)). by rewrite enumerate_snd.
Qed.

Lemma isort_lookup ks l :
  Forall (λ p, ks !! p.2 = Some p.1) l →
  Forall (λ p, ks !! p.2 = Some p.1) (isort l).
Proof. intros Hl. by rewrite (isort_perm l). Qed.

Lemma rev_pairs_lookup ks l :
  Forall (λ p, ks !! p.2 = Some p.1) l →
  Forall (λ p, ks !! p.2 = Some p.1) (rev l).
Proof. intros Hl. by rewrite <- Permutation_rev. Qed.

Lemma nargsort_sorted ascending ks :
  StronglySorted (key_order ascending) (gather (nargsort ascending ks) ks).
Proof.
  unfold nargsort. destruct ascending; simpl.
  - rewrite gather_pairs by apply isort_lookup, enumerate_lookup.
    apply isort_sorted.
  - rewrite <- map_rev. change (map snd ?l) with (l.*2).
    rewrite gather_pairs
      by apply rev_pairs_lookup, isort_lookup, rev_pairs_lookup, enumerate_lookup.
    change (?l.*1) with (map fst l). rewrite map_rev.
    apply sorted_rev, isort_sorted.
Qed.

Lemma mirror_argsort_sorted ascending ks :
  StronglySorted (key_order ascending)
    (gather (mirror_argsort ascending ks) ks).
Proof.
  unfold mirror_argsort. destruct ascending; simpl.
  - rewrite gather_pairs by apply isort_lookup, enumerate_lookup.
    apply isort_sorted.
  - rewrite <- map_rev. change (map snd ?l) with (l.*2).
    rewrite gather_pairs
      by apply rev_pairs_lookup, isort_lookup, enumerate_lookup.
    change (?l.*1) with (map fst l). rewrite map_rev.
    apply sorted_rev, isort_sorted.
Qed.
End SorterFacts.

Definition stable_sort : IndexSort :=
  {| argsort := nargsort;
     argsort_perm := nargsort_perm;
     argsort_sorted := nargsort_sorted |}.

Definition mirror_sort : IndexSort :=
  {| argsort := mirror_argsort;
     argsort_perm := mirror_argsort_perm;
     argsort_sorted := mirror_argsort_sorted |}.

(** * A sorting routine for [sort_values] *)

Section ValueSorterFacts.
Implicit Types (p : num * nat) (l : list (num * nat)) (xs : list num)
  (a b c : num).

Lemma leb_fin_iff (q r : Qc) : Number.leb (Fin q) (Fin r) = true ↔ (q ≤ r)%Qc.
Proof.
  unfold Number.leb, Number.ltb, Number.eqb, Qc_ltb, Qc_eqb.
  rewrite orb_true_iff, !bool_decide_eq_true. split.
  - intros [Hlt| ->]; [by apply Qclt_le_weak|apply Qcle_refl].
  - intros Hle. destruct (Qcle_lt_or_eq _ _ Hle); [by left|by right].
Qed.

Lemma leb_total a b :
  is_nan a = false → is_nan b = false →
  Number.leb a b = true ∨ Number.leb b a = true.
Proof.
  destruct a as [| | |q], b as [| | |r]; intros Ha Hb; try done;
    try (by left); try (by right).
  rewrite !leb_fin_iff. destruct (Qclt_le_dec q r) as [Hlt|Hle].
  - left. by apply Qclt_le_weak.
  - by right.
Qed.

Lemma leb_trans a b c :
  Number.leb a b = true → Number.leb b c = true → Number.leb a c = true.
Proof.
  destruct a as [| | |q], b as [| | |r], c as [| | |t]; try done.
  rewrite !leb_fin_iff. apply Qcle_trans.
Qed.

Lemma value_leb_total ascending a b :
  value_leb ascending a b = false → value_leb ascending b a = true.
Proof.
  unfold value_leb. destruct (is_nan b) eqn:Hb; [done|].
  destruct (is_nan a) eqn:Ha; [done|].
  destruct ascending; intros Hab.
  - destruct (leb_total a b Ha Hb); congruence.
  - destruct (leb_total b a Hb Ha); congruence.
Qed.

Lemma value_leb_trans ascending a b c :
  value_leb ascending a b = true → value_leb ascending b c = true →
  value_leb ascending a c = true.
Proof.
  unfold value_leb. destruct (is_nan c) eqn:Hc; [done|].
  destruct (is_nan b) eqn:Hb; [done|].
  destruct (is_nan a) eqn:Ha; [done|].
  destruct ascending; intros Hab Hbc; eauto using leb_trans.
Qed.

Lemma insert_value_perm ascending p l :
  Permutation (insert_value ascending p l) (p :: l).
Proof.
  induction l as [|q l IH]; simpl; [done|].
  destruct (value_leb ascending p.1 q.1); [done|].
  rewrite IH. apply perm_swap.
Qed.

Lemma insert_value_sorted ascending p l :
  StronglySorted (value_order ascending) l.*1 →
  StronglySorted (value_order ascending) (insert_value ascending p l).*1.
Proof.
  induction l as [|q l IH]; simpl; intros Hs.
  - repeat constructor.
  - apply StronglySorted_inv in Hs as [Hs Hq].
    destruct (value_leb ascending p.1 q.1) eqn:Hle; simpl.
    + constructor; [by constructor|].
      constructor; [done|]. eapply Forall_impl; [exact Hq|]. simpl.
      intros x Hx. by eapply value_leb_trans.
    + constructor; [by apply IH|].
      rewrite (Permutation_map fst (insert_value_perm ascending p l)). simpl.
      constructor; [by apply value_leb_total|done].
Qed.

Lemma value_pairs_lookup xs :
  Forall (λ p, xs !! p.2 = Some p.1) (zip xs (seq 0 (length xs))).
Proof.
  apply Forall_lookup. intros i [x j] Hp.
  apply lookup_zip_Some in Hp as [Hx Hj]. simpl.
  apply lookup_seq in Hj as [-> _]. done.
Qed.

Lemma gather_value_pairs xs l :
  Forall (λ p, xs !! p.2 = Some p.1) l → gather l.*2 xs = l.*1.
Proof.
  induction 1 as [|p l Hp _ IH]; [done|].
  rewrite !fmap_cons, (gather_cons_Some _ _ _ _ Hp). by rewrite IH.
Qed.

Lemma value_isort_perm ascending l :
  Permutation (foldr (insert_value ascending) [] l) l.
Proof.
  induction l as [|p l IH]; simpl; [done|].
  rewrite insert_value_perm. by constructor.
Qed.

Lemma value_isort_sorted ascending l :
  StronglySorted (value_order ascending)
    (foldr (insert_value ascending) [] l).*1.
Proof.
  induction l as [|p l IH]; simpl; [constructor|].
  by apply insert_value_sorted.
Qed.

Lemma value_argsort_perm ascending xs :
  Permutation (value_argsort ascending xs) (seq 0 (length xs)).
Proof.
  unfold value_argsort.
  rewrite (Permutation_map snd (value_isort_perm ascending _)).
  change (map snd ?l) with (l.*2). rewrite snd_zip; [done|].
  by rewrite length_seq.
Qed.

Lemma value_argsort_sorted ascending xs :
  StronglySorted (value_order ascending)
    (gather (value_argsort ascending xs) xs).
Proof.
  unfold value_argsort. rewrite gather_value_pairs.
  - apply value_isort_sorted.
  - rewrite (value_isort_perm ascending). apply value_pairs_lookup.
Qed.

End ValueSorterFacts.

Definition stable_values : ValueSort :=
  {| argsort_values := value_argsort;
     argsort_values_perm := value_argsort_perm;
     argsort_values_sorted := value_argsort_sorted |}.

(** The table the loader returns for a file, with the routine of a
    stable kind for the sorting (and the file itself where the loader
    raises). *)
Definition loaded (raw : frame) : frame :=
  default raw (load_data (H := stable_sort) raw).

Section FrameFacts.
Implicit Types (df : frame) (c : string) (col : list cell).

Lemma get_set_eq c col df : get c (set c col df) = Some col.
Proof. unfold get, set. simpl. apply lookup_insert_eq. Qed.

Lemma get_set_ne c c' col df : c ≠ c' → get c' (set c col df) = get c' df.
Proof. intros. unfold get, set. simpl. by apply lookup_insert_ne. Qed.

Lemma has_true c df : has c df = true ↔ is_Some (get c df).
Proof. unfold has, get. apply bool_decide_eq_true. Qed.

Lemma has_false c df : has c df = false ↔ get c df = None.
Proof.
  unfold has, get. rewrite bool_decide_eq_false. by rewrite eq_None_not_Some.
Qed.

Lemma has_set_eq c col df : has c (set c col df) = true.
Proof. apply has_true. rewrite get_set_eq. eauto. Qed.

Lemma has_set_ne c c' col df : c ≠ c' → has c' (set c col df) = has c' df.
Proof.
  intros Hne. unfold has, set, get. simpl. by rewrite lookup_insert_ne.
Qed.

Lemma get_take_rows c idx df :
  get c (take_rows idx df) = gather idx <$> get c df.
Proof. unfold get, take_rows. simpl. apply lookup_fmap. Qed.

Lemma get_select_rows c mask df :
  get c (select_rows mask df) = select mask <$> get c df.
Proof. unfold get, select_rows. simpl. apply lookup_fmap. Qed.

Lemma get_head c n df : get c (head n df) = take n <$> get c df.
Proof. unfold get, head. simpl. apply lookup_fmap. Qed.

Lemma get_replace_infs c df :
  get c (replace_infs df) = replace_col <$> get c df.
Proof. unfold get, replace_infs. simpl. apply lookup_fmap. Qed.

Lemma get_round_frame r c df :
  get c (round_frame r df) = round_col r <$> get c df.
Proof. unfold get, round_frame. simpl. apply lookup_fmap. Qed.

Lemma get_project cols c df :
  get c (project cols df) = if decide (c ∈ cols) then get c df else None.
Proof.
  unfold get, project. simpl.
  destruct (columns df !! c) as [col|] eqn:Hc.
  - case_decide.
    + by apply map_lookup_filter_Some.
    + apply map_lookup_filter_None. right. intros col' ?. simpl. done.
  - assert (filter (λ kv : string * list cell, kv.1 ∈ cols) (columns df) !! c = None) as ->.
    { apply map_lookup_filter_None. by left. }
    by case_decide.
Qed.

Lemma has_take_rows c idx df : has c (take_rows idx df) = has c df.
Proof.
  unfold has. apply bool_decide_ext. fold (get c (take_rows idx df)).
  fold (get c df). rewrite get_take_rows. apply fmap_is_Some.
Qed.
End FrameFacts.

(** * The option lists of the widgets *)

Section OptionFacts.
Implicit Types (df : frame) (col values : list cell) (c : cell).

Lemma elem_of_unique col c : c ∈ unique col ↔ c ∈ col.
Proof.
  induction col as [|x col IH]; cbn [unique]; [done|].
  rewrite !elem_of_cons, list_elem_of_filter, IH.
  destruct (decide (c = x)) as [->|Hne].
  - split; intros _; by left.
  - split; (intros [?|?]; [done|]); right; [tauto|done].
Qed.


Lemma forallb_Forall (p : cell → bool) values :
  forallb p values = true ↔ Forall (λ c, p c = true) values.
Proof.
  rewrite forallb_forall, Forall_forall.
  by setoid_rewrite list_elem_of_In.
Qed.

(** [sorted] returns for texts and for numbers, and raises for a list
    that holds both. *)
Lemma sorted_is_Some values :
  is_Some (sorted values) ↔
  Forall (λ c, is_num c = true) values ∨ Forall (λ c, is_str c = true) values.
Proof.
  unfold sorted. rewrite <- !forallb_Forall.
  destruct (forallb is_num values), (forallb is_str values); cbn;
    split; try (intros [? [=]]); try (intros [[=]|[=]]); eauto.
Qed.

Lemma sorted_mixed values x s :
  Num x ∈ values → Str s ∈ values → sorted values = None.
Proof.
  intros Hx Hs. apply eq_None_not_Some. rewrite sorted_is_Some.
  rewrite !Forall_forall. intros [Hn|Ht].
  - by specialize (Hn _ Hs).
  - by specialize (Ht _ Hx).
Qed.



(** Without the column line 106 raises [KeyError]; with a text and a
    number in it, [TypeError]. *)
Lemma all_types_missing df : get "Activity Type" df = None → all_types df = None.
Proof. intros Hg. unfold all_types. by rewrite Hg. Qed.

Lemma all_types_mixed df types x s :
  get "Activity Type" df = Some types →
  Num x ∈ types → Str s ∈ types → all_types df = None.
Proof.
  intros Hg Hx Hs. unfold all_types. rewrite Hg. cbn.
  rewrite (sorted_mixed _ x s); [done| |]; by apply elem_of_unique.
Qed.

Lemma df_filtered_inv df selected_year selected_types filtered :
  df_filtered df selected_year selected_types = Some filtered →
  ∃ by_year options,
    filter_year df selected_year = Some by_year ∧
    all_types by_year = Some options ∧
    filter_types by_year selected_types = Some filtered.
Proof.
  unfold df_filtered. intros Hf.
  apply bind_Some in Hf as (by_year & Hy & Hf).
  apply bind_Some in Hf as (options & Ho & Hf). eauto.
Qed.


End OptionFacts.

(** * The loader *)

Section LoaderFacts.
Context `{IndexSort}.
Implicit Types (df : frame) (c : string) (col : list cell).

(** Each derivation step writes its own column and nothing else. *)
Lemma derive_distance_set df df' :
  derive_distance df = Some df' → ∃ col, df' = set "Distance_km" col df.
Proof.
  unfold derive_distance. intros Hd.
  repeat case_match; simplify_option_eq; eauto.
Qed.

Lemma derive_time_set df df' :
  derive_time df = Some df' → ∃ col, df' = set "Moving_Time_hr" col df.
Proof.
  unfold derive_time. intros Hd.
  repeat case_match; simplify_option_eq; eauto.
Qed.

Lemma derive_elevation_set df df' :
  derive_elevation df = Some df' → ∃ col, df' = set "Elevation_Gain_m" col df.
Proof.
  unfold derive_elevation. intros Hd.
  repeat case_match; simplify_option_eq; eauto.
Qed.

Lemma derive_speed_set df df' :
  derive_speed df = Some df' → ∃ col, df' = set "Average_Speed_kmh" col df.
Proof.
  unfold derive_speed. intros Hd.
  repeat case_match; simplify_option_eq; eauto.
Qed.

Lemma derive_calories_has df : is_Some (get "Calories" (derive_calories df)).
Proof.
  unfold derive_calories. destruct (has "Calories" df) eqn:Hc.
  - by apply has_true.
  - rewrite get_set_eq. eauto.
Qed.

Lemma derive_calories_ne c df :
  c ≠ "Calories"%string → get c (derive_calories df) = get c df.
Proof.
  intros Hne. unfold derive_calories. case_match; [done|].
  by apply get_set_ne.
Qed.

Lemma derive_metrics_key_cols df0 df c :
  derive_metrics df0 = Some df → c ∈ key_cols → is_Some (get c df).
Proof.
  unfold derive_metrics. intros Hd Hc.
  apply bind_Some in Hd as (d1 & H1 & Hd).
  apply bind_Some in Hd as (d2 & H2 & Hd).
  apply bind_Some in Hd as (d3 & H3 & Hd).
  apply bind_Some in Hd as (d4 & H4 & Hd).
  injection Hd as <-.
  apply derive_distance_set in H1 as [c1 ->].
  apply derive_time_set in H2 as [c2 ->].
  apply derive_elevation_set in H3 as [c3 ->].
  apply derive_speed_set in H4 as [c4 ->].
  unfold key_cols in Hc.
  repeat (apply elem_of_cons in Hc as [->|Hc]);
    [| | | |apply derive_calories_has|by apply elem_of_nil in Hc];
    rewrite derive_calories_ne by done;
    repeat (rewrite get_set_ne by done); rewrite get_set_eq; eauto.
Qed.

(** The clean-up rewrites the listed columns cell by cell. *)
Lemma fillna_cols_get cs df df' c :
  NoDup cs → fillna_cols cs df = Some df' →
  get c df' = if decide (c ∈ cs) then fillna_col <$> get c df else get c df.
Proof.
  intros Hnd. revert df. induction Hnd as [|c0 cs Hnotin Hnd IH]; intros df Hf.
  - simpl in Hf. injection Hf as <-. by rewrite decide_False by apply not_elem_of_nil.
  - simpl in Hf. apply bind_Some in Hf as (col & Hcol & Hf).
    rewrite (IH _ Hf). destruct (decide (c = c0)) as [->|Hne].
    + rewrite decide_False by done. rewrite decide_True by apply list_elem_of_here.
      by rewrite get_set_eq, Hcol.
    + rewrite get_set_ne by done.
      destruct (decide (c ∈ cs)) as [Hin|Hnin].
      * by rewrite decide_True by by apply list_elem_of_further.
      * rewrite decide_False; [done|].
        intros [?|?]%elem_of_cons; done.
Qed.

Lemma fillna_cols_index cs df df' :
  fillna_cols cs df = Some df' → index df' = index df.
Proof.
  revert df. induction cs as [|c cs IH]; intros df Hf; simpl in Hf.
  - by injection Hf as <-.
  - apply bind_Some in Hf as (col & _ & Hf). by rewrite (IH _ Hf).
Qed.

Lemma key_cols_NoDup : NoDup key_cols.
Proof. compute_done. Qed.



Lemma replace_inf_not_inf v : cell_isinf (replace_inf v) = false.
Proof. unfold replace_inf. by destruct v as [[]|]. Qed.

Lemma replace_inf_spec v :
  replace_inf v = if cell_isinf v then Num zero else v.
Proof. done. Qed.

Lemma load_data_get df0 df c :
  load_data df0 = Some df →
  ∃ d, derive_metrics df0 = Some d ∧ index df = index d ∧
    get c df =
      if decide (c ∈ key_cols) then clean_col <$> get c d
      else replace_col <$> get c d.
Proof.
  unfold load_data. intros Hl.
  apply bind_Some in Hl as (d & Hd & Hl).
  apply bind_Some in Hl as (d' & Hf & Hl). injection Hl as <-.
  exists d. split; [done|]. split.
  { simpl. by apply fillna_cols_index in Hf. }
  rewrite get_replace_infs, (fillna_cols_get _ _ _ c key_cols_NoDup Hf).
  case_decide; [|done].
  destruct (get c d) as [col|]; [|done]. simpl. f_equal.
  unfold replace_col, fillna_col, clean_col. by rewrite <- list_fmap_compose.
Qed.
End LoaderFacts.

(** * The derivation steps *)

Section DeriveFacts.
Context `{IndexSort}.
Implicit Types (df : frame) (c : string) (col : list cell).

Lemma get_add_time_components c df :
  c ∉ time_cols → get c (add_time_components df) = get c df.
Proof.
  intros Hc. unfold add_time_components, time_cols in *.
  repeat (apply not_elem_of_cons in Hc as [? Hc]).
  by repeat (rewrite get_set_ne by done).
Qed.

Lemma has_get_ext c df df' : get c df = get c df' → has c df = has c df'.
Proof. unfold has, get. by intros ->. Qed.

(** A source column reaches the derivation in index order. *)
Lemma get_sorted_source c df :
  c ∉ time_cols →
  get c (add_time_components (sort_index true df))
  = gather (argsort true (dt_key <$> index df)) <$> get c df.
Proof.
  intros Hc. rewrite get_add_time_components by done.
  unfold sort_index. apply get_take_rows.
Qed.

Lemma has_sorted_source c df :
  c ∉ time_cols →
  has c (add_time_components (sort_index true df)) = has c df.
Proof.
  intros Hc. unfold has. apply bool_decide_ext.
  fold (get c df). fold (get c (add_time_components (sort_index true df))).
  rewrite get_sorted_source by done. apply fmap_is_Some.
Qed.

Lemma derive_metrics_inv df0 d :
  derive_metrics df0 = Some d →
  ∃ d1 d2 d3 d4,
    derive_distance (add_time_components (sort_index true df0)) = Some d1 ∧
    derive_time d1 = Some d2 ∧
    derive_elevation d2 = Some d3 ∧
    derive_speed d3 = Some d4 ∧
    d = derive_calories d4.
Proof.
  unfold derive_metrics. intros Hd.
  apply bind_Some in Hd as (d1 & H1 & Hd).
  apply bind_Some in Hd as (d2 & H2 & Hd).
  apply bind_Some in Hd as (d3 & H3 & Hd).
  apply bind_Some in Hd as (d4 & H4 & Hd).
  injection Hd as <-. by exists d1, d2, d3, d4.
Qed.

(** The hours column holds numbers only. *)
Lemma series_div_numeric col k out :
  series_div col k = Some out → Forall (λ v, is_num v = true) out.
Proof.
  unfold series_div. intros Hm. apply mapM_Some_1 in Hm.
  induction Hm as [|v w col out Hv _ IH]; constructor; [|done].
  destruct v; simpl in Hv; [|done]. by injection Hv as <-.
Qed.

Lemma broadcast_numeric df x : Forall (λ v, is_num v = true) (broadcast df (Num x)).
Proof. unfold broadcast. by apply Forall_replicate. Qed.

Lemma derive_time_inv df df' :
  derive_time df = Some df' →
  ∃ hr, df' = set "Moving_Time_hr" hr df ∧ Forall (λ v, is_num v = true) hr ∧
    (∀ moving, get "Moving Time" df = Some moving →
       series_div moving (of_Z 3600) = Some hr).
Proof.
  unfold derive_time. destruct (has "Moving Time" df) eqn:Hh.
  - intros Hd. apply bind_Some in Hd as (moving & Hm & Hd).
    apply bind_Some in Hd as (hr & Hhr & Hd). injection Hd as <-.
    exists hr. repeat split; [by eapply series_div_numeric|].
    intros moving' Hm'. congruence.
  - intros [= <-]. eexists. repeat split; [apply broadcast_numeric|].
    apply has_false in Hh. intros moving' Hm'. congruence.
Qed.

Lemma derive_speed_inv df df' :
  has "Average Speed" df = false →
  derive_speed df = Some df' →
  ∀ dist time, get "Distance_km" df = Some dist →
    get "Moving_Time_hr" df = Some time →
    ∃ kmh, df' = set "Average_Speed_kmh" kmh df ∧
      Forall2 (λ dt s, speed_of_row dt.1 dt.2 = Some s) (zip dist time) kmh.
Proof.
  intros Hno Hd dist time Hdist Htime. unfold derive_speed in Hd.
  rewrite Hno in Hd.
  assert (has "Distance_km" df = true) as Hhd by (apply has_true; eauto).
  assert (has "Moving_Time_hr" df = true) as Hht by (apply has_true; eauto).
  rewrite Hhd, Hht in Hd. simpl in Hd. rewrite Hdist, Htime in Hd. simpl in Hd.
  apply bind_Some in Hd as (kmh & Hk & Hd). injection Hd as <-.
  exists kmh. split; [done|]. by apply mapM_Some_1.
Qed.

Lemma speed_of_row_zero dc : speed_of_row dc (Num zero) = Some (Num zero).
Proof. done. Qed.

Lemma speed_of_row_num x t :
  speed_of_row (Num x) (Num t)
  = Some (Num (if Number.gtb t zero then Number.div x t else zero)).
Proof. unfold speed_of_row, cell_gt, cell_div. by destruct (Number.gtb t zero). Qed.

Lemma Qc_zero_div (q : Qc) : (0 / q)%Qc = 0%Qc.
Proof. unfold Qcdiv. apply Qcmult_0_l. Qed.

Lemma zero_div_3600 : Number.div zero (of_Z 3600) = zero.
Proof.
  unfold Number.div, zero, of_Z.
  assert (Qc_eqb (Qc_of_Z 3600) 0 = false) as -> by (by vm_compute).
  by rewrite Qc_zero_div.
Qed.
End DeriveFacts.

Section ElevationFacts.
Context `{IndexSort}.
Implicit Types (df : frame) (c : string) (col : list cell).

Lemma derive_elevation_inv df df' :
  derive_elevation df = Some df' →
  ∃ el, df' = set "Elevation_Gain_m" el df ∧
    (∀ src, get "Total Elevation Gain" df = Some src → el = src) ∧
    (get "Total Elevation Gain" df = None →
     ∀ src, get "Elevation Gain" df = Some src → el = src) ∧
    (get "Total Elevation Gain" df = None →
     get "Elevation Gain" df = None → el = broadcast df (Num zero)).
Proof.
  unfold derive_elevation.
  destruct (has "Total Elevation Gain" df) eqn:Ht.
  - intros Hd. apply bind_Some in Hd as (src & Hs & [= <-]).
    exists src. repeat split; congruence.
  - apply has_false in Ht. destruct (has "Elevation Gain" df) eqn:He.
    + intros Hd. apply bind_Some in Hd as (src & Hs & [= <-]).
      exists src. repeat split; congruence.
    + apply has_false in He. intros [= <-]. eexists.
      repeat split; congruence.
Qed.

Lemma index_derive_calories df : index (derive_calories df) = index df.
Proof. unfold derive_calories. by case_match. Qed.

Lemma derive_metrics_index df0 d :
  derive_metrics df0 = Some d → index d = index (sort_index true df0).
Proof.
  intros Hd.
  destruct (derive_metrics_inv _ _ Hd) as (d1 & d2 & d3 & d4 & H1 & H2 & H3 & H4 & ->).
  destruct (derive_distance_set _ _ H1) as [? ->].
  destruct (derive_time_set _ _ H2) as [? ->].
  destruct (derive_elevation_set _ _ H3) as [? ->].
  destruct (derive_speed_set _ _ H4) as [? ->].
  by rewrite index_derive_calories.
Qed.

Lemma clean_finite (q : Qc) : clean (Num (Fin q)) = Num (Fin q).
Proof. done. Qed.

Lemma clean_col_zeros n :
  clean_col (replicate n (Num zero)) = replicate n (Num zero).
Proof. unfold clean_col. by rewrite fmap_replicate. Qed.
End ElevationFacts.

(** * The scalar summary *)

Section SummaryFacts.
Implicit Types (df : frame) (col : list cell) (xs : list num).

Lemma select_positive col :
  Forall (λ v, is_num v = true) col →
  ∃ mask, series_gt col zero = Some mask ∧
    select mask col = Num <$> positive_values col.
Proof.
  induction 1 as [|v col Hv _ (mask & Hm & Hs)].
  - by exists [].
  - destruct v as [x|]; [|done].
    exists (Number.gtb x zero :: mask). split.
    + unfold series_gt in *. apply mapM_Some_2.
      constructor; [done|]. exact (mapM_Some_1 _ _ _ Hm).
    + unfold positive_values in *. cbn -[Number.gtb zero].
      destruct (Number.gtb x zero); cbn -[Number.gtb zero]; [f_equal|]; exact Hs.
Qed.

Lemma positive_values_positive col :
  Forall (λ x, Number.gtb x zero = true) (positive_values col).
Proof.
  unfold positive_values. induction col as [|[x|] col IH]; [done| |done].
  cbn -[Number.gtb zero].
  destruct (Number.gtb x zero) eqn:Hx; [by constructor|done].
Qed.

Lemma gtb_not_nan x y : Number.gtb x y = true → is_nan x = false.
Proof. by destruct x, y. Qed.

Lemma sum_from_numbers acc xs :
  Forall (λ x, is_nan x = false) xs →
  sum_from acc (Num <$> xs) = Some (foldl Number.add acc xs).
Proof.
  intros Hxs. revert acc. induction Hxs as [|x xs Hx _ IH]; intros acc; [done|].
  simpl. rewrite Hx. apply IH.
Qed.

Lemma series_count_numbers xs :
  Forall (λ x, is_nan x = false) xs → series_count (Num <$> xs) = length xs.
Proof.
  unfold series_count. induction 1 as [|x xs Hx _ IH]; [done|].
  rewrite fmap_cons, filter_cons_True by done. cbn [length]. by rewrite IH.
Qed.

Lemma series_mean_numbers xs :
  Forall (λ x, is_nan x = false) xs →
  series_mean (Num <$> xs) = Some (arithmetic_mean xs).
Proof.
  intros Hxs. unfold series_mean, series_sum, arithmetic_mean.
  rewrite sum_from_numbers by done. simpl.
  by rewrite series_count_numbers.
Qed.

(** The first half of C2: the summary's average speed is the arithmetic
    mean of the speeds greater than zero. *)
Lemma avg_speed_mean_of_positive df speeds :
  get "Average_Speed_kmh" df = Some speeds →
  Forall (λ v, is_num v = true) speeds →
  avg_speed df = Some (arithmetic_mean (positive_values speeds)).
Proof.
  intros Hget Hnum. unfold avg_speed. rewrite Hget. simpl.
  destruct (select_positive _ Hnum) as (mask & -> & Hsel). simpl.
  rewrite get_select_rows, Hget. simpl. rewrite Hsel.
  apply series_mean_numbers.
  eapply Forall_impl; [apply positive_values_positive|].
  intros x. apply gtb_not_nan.
Qed.

Lemma arithmetic_mean_nil : arithmetic_mean [] = NaN.
Proof. done. Qed.
End SummaryFacts.

(** * The cumulative series *)

Section CumulativeFacts.
Implicit Types (a q : Qc) (qs : list Qc) (col : list cell).


Lemma gather_fmap {A B} (f : A → B) idx (l : list A) :
  gather idx (f <$> l) = f <$> gather idx l.
Proof.
  unfold gather. induction idx as [|i idx IH]; [done|].
  cbn [omap list_omap]. rewrite list_lookup_fmap.
  destruct (l !! i); cbn; by rewrite IH.
Qed.










End CumulativeFacts.

(** * The monthly series *)

Section MonthlyFacts.
Implicit Types (df : frame) (col : list cell) (ms : list Z) (k : cell).

Lemma foldr_min_spec m ms :
  foldr Z.min m ms ∈ m :: ms ∧ ∀ x, x ∈ m :: ms → foldr Z.min m ms ≤ x.
Proof.
  induction ms as [|y ms [Hin Hle]]; cbn [foldr].
  - split; [apply list_elem_of_here|].
    intros x ->%list_elem_of_singleton. lia.
  - split.
    + destruct (Z.min_spec y (foldr Z.min m ms)) as [[_ ->]|[_ ->]].
      * apply list_elem_of_further, list_elem_of_here.
      * apply elem_of_cons in Hin as [Hm|Hin]; [rewrite Hm at 1; apply list_elem_of_here|].
        by do 2 apply list_elem_of_further.
    + intros x Hx. apply elem_of_cons in Hx as [->|Hx].
      * specialize (Hle m (list_elem_of_here _ _)). lia.
      * apply elem_of_cons in Hx as [->|Hx]; [lia|].
        specialize (Hle x (list_elem_of_further _ _ _ Hx)). lia.
Qed.

Lemma foldr_max_spec m ms :
  foldr Z.max m ms ∈ m :: ms ∧ ∀ x, x ∈ m :: ms → x ≤ foldr Z.max m ms.
Proof.
  induction ms as [|y ms [Hin Hle]]; cbn [foldr].
  - split; [apply list_elem_of_here|].
    intros x ->%list_elem_of_singleton. lia.
  - split.
    + destruct (Z.max_spec y (foldr Z.max m ms)) as [[_ ->]|[_ ->]].
      * apply elem_of_cons in Hin as [Hm|Hin]; [rewrite Hm at 1; apply list_elem_of_here|].
        by do 2 apply list_elem_of_further.
      * apply list_elem_of_further, list_elem_of_here.
    + intros x Hx. apply elem_of_cons in Hx as [->|Hx].
      * specialize (Hle m (list_elem_of_here _ _)). lia.
      * apply elem_of_cons in Hx as [->|Hx]; [lia|].
        specialize (Hle x (list_elem_of_further _ _ _ Hx)). lia.
Qed.

(** The bins run from the earliest month to the latest one. *)
Lemma month_range_spec ms m :
  m ∈ month_range ms ↔ ∃ lo hi, lo ∈ ms ∧ hi ∈ ms ∧ lo ≤ m ≤ hi.
Proof.
  destruct ms as [|m0 ms]; cbn [month_range].
  - split; [by intros ?%elem_of_nil|]. by intros (lo & _ & ?%elem_of_nil & _).
  - destruct (foldr_min_spec m0 ms) as [Hlo Hmin].
    destruct (foldr_max_spec m0 ms) as [Hhi Hmax].
    rewrite elem_of_seqZ. split.
    + intros Hm. exists (foldr Z.min m0 ms), (foldr Z.max m0 ms).
      repeat split; [done..|lia|lia].
    + intros (lo & hi & Hl & Hh & Hm).
      specialize (Hmin lo Hl). specialize (Hmax hi Hh). lia.
Qed.

(** One bin per month: each bin is the month after the one before. *)
Lemma month_range_consecutive ms i m m' :
  month_range ms !! i = Some m → month_range ms !! S i = Some m' →
  m' = m + 1.
Proof.
  destruct ms as [|m0 ms]; cbn [month_range]; [done|].
  intros [-> _]%lookup_seqZ [-> _]%lookup_seqZ. lia.
Qed.

Lemma select_none {A} (mask : list bool) (l : list A) :
  Forall (λ b, b = false) mask → select mask l = [].
Proof.
  intros Hm. revert l. induction Hm as [|b mask -> _ IH]; intros [|x l]; try done.
  cbn. apply IH.
Qed.

Lemma month_mask_none ms m :
  m ∉ ms → Forall (λ b, b = false) ((λ x, bool_decide (x = m)) <$> ms).
Proof.
  intros Hm. apply Forall_fmap, Forall_forall. intros x Hx. cbn.
  apply bool_decide_eq_false. intros ->. done.
Qed.

Lemma resample_M_sum_inv c df bins :
  resample_M_sum c df = Some bins →
  ∃ col, get c df = Some col ∧
    bins.*1 = month_range (month_index <$> index df) ∧
    ∀ b, b ∈ bins →
      series_sum
        (select ((λ x, bool_decide (x = b.1)) <$> (month_index <$> index df)) col)
      = Some b.2.
Proof.
  unfold resample_M_sum. intros Hr.
  apply bind_Some in Hr as (col & Hcol & Hr). exists col. split; [done|].
  apply mapM_Some_1 in Hr.
  induction Hr as [|m b ms bins Hb _ [IH1 IH2]].
  - split; [done|]. by intros b ?%elem_of_nil.
  - apply bind_Some in Hb as (s & Hs & [= <-]). split.
    + cbn. by rewrite IH1.
    + intros b' [->|Hb']%elem_of_cons; [exact Hs|by apply IH2].
Qed.

Lemma monthly_of_type_inv df k rows :
  monthly_of_type df k = Some rows →
  ∃ g dist,
    group_rows "Activity Type" k df = Some g ∧
    get "Distance_km" g = Some dist ∧
    mr_month <$> rows = month_range (month_index <$> index g) ∧
    ∀ r, r ∈ rows →
      mr_type r = k ∧
      series_sum
        (select ((λ x, bool_decide (x = mr_month r)) <$> (month_index <$> index g))
           dist)
      = Some (mr_distance r).
Proof.
  unfold monthly_of_type. intros Hm.
  apply bind_Some in Hm as (g & Hg & Hm).
  apply bind_Some in Hm as (bins & Hb & [= <-]).
  destruct (resample_M_sum_inv _ _ _ Hb) as (dist & Hd & Hmonths & Hsum).
  exists g, dist. split; [done|]. split; [done|]. split.
  - rewrite <- Hmonths, <- list_fmap_compose. done.
  - intros r (b & -> & Hin)%list_elem_of_fmap. split; [done|]. by apply Hsum.
Qed.
Lemma monthly_of_type_span df k rows :
  monthly_of_type df k = Some rows →
  ∃ g dist,
    group_rows "Activity Type" k df = Some g ∧
    get "Distance_km" g = Some dist ∧
    (∀ m, m ∈ mr_month <$> rows ↔
       ∃ lo hi, lo ∈ month_index <$> index g ∧
         hi ∈ month_index <$> index g ∧ lo ≤ m ≤ hi) ∧
    (∀ i m m', (mr_month <$> rows) !! i = Some m →
       (mr_month <$> rows) !! S i = Some m' → m' = m + 1) ∧
    (∀ r, r ∈ rows →
       mr_type r = k ∧
       series_sum
         (select ((λ x, bool_decide (x = mr_month r))
                    <$> (month_index <$> index g)) dist)
       = Some (mr_distance r)) ∧
    (∀ r, r ∈ rows → mr_month r ∉ month_index <$> index g →
       mr_distance r = zero).
Proof.
  intros Hm.
  destruct (monthly_of_type_inv _ _ _ Hm) as (g & dist & Hg & Hd & Hmonths & Hrows).
  exists g, dist. split; [done|]. split; [done|].
  split. { intros m. rewrite Hmonths. apply month_range_spec. }
  split. { intros i m m'. rewrite Hmonths. apply month_range_consecutive. }
  split; [done|].
  intros r Hr Hnone. destruct (Hrows r Hr) as [_ Hsum].
  rewrite (select_none _ _ (month_mask_none _ _ Hnone)) in Hsum.
  by injection Hsum as <-.
Qed.

Lemma insert_key_perm k (ks : list cell) : Permutation (insert_key k ks) (k :: ks).
Proof.
  induction ks as [|k' ks IH]; cbn [insert_key]; [done|].
  destruct (cell_leb k k'); [done|]. rewrite IH. apply perm_swap.
Qed.

Lemma group_keys_perm col :
  Permutation (group_keys col)
    (remove_dups (filter (λ c, cell_isna c = false) col)).
Proof.
  unfold group_keys.
  induction (remove_dups (filter (λ c, cell_isna c = false) col)) as [|k ks IH];
    cbn [foldr]; [done|].
  rewrite insert_key_perm. by constructor.
Qed.

Lemma group_keys_NoDup col : NoDup (group_keys col).
Proof. rewrite group_keys_perm. apply NoDup_remove_dups. Qed.

Lemma elem_of_group_keys col k :
  k ∈ group_keys col ↔ k ∈ col ∧ cell_isna k = false.
Proof.
  rewrite group_keys_perm, elem_of_remove_dups, list_elem_of_filter. tauto.
Qed.

Lemma filter_all {A} (P : A → Prop) `{∀ x, Decision (P x)} (l : list A) :
  Forall P l → filter P l = l.
Proof.
  induction 1 as [|x l Hx _ IH]; [done|].
  by rewrite filter_cons_True, IH.
Qed.

Lemma filter_none {A} (P : A → Prop) `{∀ x, Decision (P x)} (l : list A) :
  Forall (λ x, ¬ P x) l → filter P l = [].
Proof.
  induction 1 as [|x l Hx _ IH]; [done|].
  by rewrite filter_cons_False.
Qed.

Lemma monthly_rows_types df keys rowss :
  Forall2 (λ k rs, monthly_of_type df k = Some rs) keys rowss →
  Forall (λ r, mr_type r ∈ keys) (concat rowss).
Proof.
  induction 1 as [|k rs keys rowss Hk _ IH]; [done|].
  cbn [concat]. apply Forall_app. split.
  - destruct (monthly_of_type_inv _ _ _ Hk) as (g & dist & _ & _ & _ & Hrows).
    apply Forall_forall. intros r Hr. destruct (Hrows r Hr) as [Ht _].
    rewrite Ht. apply list_elem_of_here.
  - eapply Forall_impl; [exact IH|]. intros r Hr. by apply list_elem_of_further.
Qed.

(** In the whole table the rows of a type are the rows of its group. *)
Lemma monthly_rows_of_type df keys rowss k :
  Forall2 (λ k' rs, monthly_of_type df k' = Some rs) keys rowss →
  NoDup keys → k ∈ keys →
  monthly_of_type df k
  = Some (filter (λ r, mr_type r = k) (concat rowss)).
Proof.
  induction 1 as [|k' rs keys rowss Hk Hrest IH]; intros Hnd Hin.
  { by apply elem_of_nil in Hin. }
  apply NoDup_cons in Hnd as [Hnotin Hnd].
  cbn [concat]. rewrite filter_app.
  destruct (monthly_of_type_inv _ _ _ Hk) as (g & dist & _ & _ & _ & Hrows).
  destruct (decide (k = k')) as [->|Hne].
  - rewrite filter_all.
    2:{ apply Forall_forall. intros r Hr. by destruct (Hrows r Hr). }
    rewrite filter_none, app_nil_r; [done|].
    eapply Forall_impl; [exact (monthly_rows_types _ _ _ Hrest)|].
    intros r Hr Heq. cbn in Hr. by rewrite Heq in Hr.
  - rewrite filter_none.
    2:{ apply Forall_forall. intros r Hr. destruct (Hrows r Hr) as [Ht _].
        by rewrite Ht. }
    apply elem_of_cons in Hin as [?|Hin]; [done|]. by apply IH.
Qed.
End MonthlyFacts.

(** * The recent-activity view *)

Section RecentFacts.
Context `{IndexSort}.
Implicit Types (df : frame) (c : string) (col : list cell) (idx : list nat).

Lemma gather_app {A} idx idx' (l : list A) :
  gather (idx ++ idx') l = gather idx l ++ gather idx' l.
Proof. unfold gather. apply omap_app. Qed.

Lemma gather_take {A} n idx (l : list A) :
  Forall (λ i, (i < length l)%nat) idx →
  take n (gather idx l) = gather (take n idx) l.
Proof.
  intros Hidx. revert n. induction Hidx as [|i idx Hi _ IH]; intros n.
  - by destruct n.
  - destruct (lookup_lt_is_Some_2 l i Hi) as [x Hx].
    rewrite (gather_cons_Some _ _ _ _ Hx).
    destruct n as [|n]; [done|]. cbn [take].
    rewrite (gather_cons_Some _ _ _ _ Hx). by rewrite IH.
Qed.

Lemma argsort_length ascending ks :
  length (argsort ascending ks) = length ks.
Proof.
  rewrite (Permutation_length (argsort_perm ascending ks)). apply length_seq.
Qed.

Lemma argsort_in_range ascending ks :
  Forall (λ i, (i < length ks)%nat) (argsort ascending ks).
Proof.
  rewrite (argsort_perm ascending ks). apply Forall_forall.
  intros i Hi%elem_of_seq. lia.
Qed.

Lemma argsort_NoDup ascending ks : NoDup (argsort ascending ks).
Proof. rewrite (argsort_perm ascending ks). apply NoDup_seq. Qed.

Lemma NoDup_take_drop {A} n (l : list A) :
  NoDup l → NoDup (take n l) ∧ ∀ x, x ∈ take n l → x ∉ drop n l.
Proof.
  intros Hnd. rewrite <- (take_drop n l) in Hnd.
  apply NoDup_app in Hnd as (? & ? & _). done.
Qed.

Lemma StronglySorted_take {A} (R : relation A) n (l : list A) :
  StronglySorted R l → StronglySorted R (take n l).
Proof.
  intros Hs. rewrite <- (take_drop n l) in Hs.
  by apply StronglySorted_app_1_l in Hs.
Qed.

Lemma elem_of_display_cols c df :
  c ∈ display_cols df ↔ c ∈ recent_cols ∧ is_Some (get c df).
Proof.
  unfold display_cols. rewrite list_elem_of_filter, has_true. tauto.
Qed.

(** What the view holds in a column. *)
Lemma get_recent_activities c df :
  get c (recent_activities df)
  = if decide (c ∈ recent_cols) then
      (λ col, round_col round1
                (take 20 (gather (argsort false (dt_key <$> index df)) col)))
        <$> get c df
    else None.
Proof.
  unfold recent_activities. rewrite get_round_frame, get_head.
  unfold sort_index. rewrite get_take_rows, get_project.
  change (index (project (display_cols df) df)) with (index df).
  destruct (decide (c ∈ display_cols df)) as [Hin|Hnin].
  - apply elem_of_display_cols in Hin as [Hrc [col Hcol]].
    rewrite decide_True by done. by rewrite Hcol.
  - destruct (decide (c ∈ recent_cols)) as [Hrc|Hrc]; [|done].
    destruct (get c df) as [col|] eqn:Hcol; [|done].
    destruct Hnin. apply elem_of_display_cols. eauto.
Qed.

Lemma index_recent_activities df :
  index (recent_activities df)
  = take 20 (gather (argsort false (dt_key <$> index df)) (index df)).
Proof. done. Qed.

Lemma round1_one_decimal x : is_finite x = true → one_decimal (round1 x).
Proof. destruct x as [| | |a]; try done. intros _. by eexists. Qed.

Lemma round_col_one_decimal col :
  Forall (λ v, is_num v = true) (round_col round1 col) →
  Forall (λ v, ∀ x, v = Num x → is_finite x = true → one_decimal x)
    (round_col round1 col).
Proof.
  unfold round_col. destruct (forallb is_num col) eqn:Hnum.
  - intros _. apply Forall_fmap, Forall_forall. intros v _ x.
    destruct v as [y|s]; cbn; [|done]. intros [= <-] Hfin.
    destruct y as [| | |a]; try done. by eexists.
  - intros Hall. apply Is_true_false_2 in Hnum. destruct Hnum.
    apply forallb_True. eapply Forall_impl; [exact Hall|].
    intros v ->. done.
Qed.

Lemma length_round_col r col : length (round_col r col) = length col.
Proof. unfold round_col. case_match; [apply length_fmap|done]. Qed.
End RecentFacts.

(** * A stable kind keeps equal dates in row order *)

Section StableFacts.
Implicit Types (p q : Z * nat) (l : list (Z * nat)) (ks : list Z).

Lemma StronglySorted_rev {A} (R : relation A) (l : list A) :
  StronglySorted R l → StronglySorted (flip R) (rev l).
Proof.
  induction 1 as [|x l _ IH Hx]; cbn [rev]; [constructor|].
  apply StronglySorted_app_2; [|done|repeat constructor].
  intros a b Ha ->%list_elem_of_singleton.
  apply list_elem_of_In, in_rev, list_elem_of_In in Ha.
  rewrite Forall_forall in Hx. by apply Hx.
Qed.

Lemma StronglySorted_lookup {A} (R : relation A) (l : list A) a b x y :
  StronglySorted R l → (a < b)%nat →
  l !! a = Some x → l !! b = Some y → R x y.
Proof.
  intros Hs. revert a b. induction Hs as [|z l _ IH Hz]; intros a b Hab Ha Hb.
  - done.
  - destruct b as [|b]; [lia|]. destruct a as [|a].
    + injection Ha as ->. rewrite Forall_forall in Hz. apply Hz.
      by eapply list_elem_of_lookup_2.
    + apply (IH a b); [lia|done..].
Qed.

Lemma StronglySorted_weaken {A} (R R' : relation A) (l : list A) :
  (∀ x y, R x y → R' x y) → StronglySorted R l → StronglySorted R' l.
Proof.
  intros HR. induction 1 as [|x l _ IH Hx]; constructor; [done|].
  eapply Forall_impl; [exact Hx|]. intros y. apply HR.
Qed.

Lemma zip_seq_rising ks s :
  StronglySorted (λ p q, (p.2 < q.2)%nat) (zip ks (seq s (length ks))).
Proof.
  revert s. induction ks as [|k ks IH]; intros s; cbn; [constructor|].
  constructor; [apply IH|].
  apply Forall_forall. intros [k' j] Hin. cbn.
  apply elem_of_zip_r, elem_of_seq in Hin. lia.
Qed.

Lemma enumerate_rev_ties ks : StronglySorted ties_fall (rev (enumerate ks)).
Proof.
  eapply StronglySorted_weaken; [|apply StronglySorted_rev, zip_seq_rising].
  intros p q Hlt _. exact Hlt.
Qed.

Lemma insert_by_ties p l :
  StronglySorted ties_fall l → Forall (ties_fall p) l →
  StronglySorted ties_fall (insert_by p l).
Proof.
  induction 1 as [|q l Hs IH Hq]; intros Hp; cbn [insert_by].
  - repeat constructor.
  - apply Forall_cons in Hp as [Hpq Hp].
    destruct (Z.leb_spec p.1 q.1) as [Hle|Hgt].
    + constructor; [by constructor|by constructor].
    + constructor; [by apply IH|].
      rewrite insert_by_perm. constructor; [|done].
      intros Heq. lia.
Qed.

Lemma isort_ties l : StronglySorted ties_fall l → StronglySorted ties_fall (isort l).
Proof.
  induction 1 as [|p l _ IH Hp]; cbn [isort foldr]; [constructor|].
  apply insert_by_ties; [done|]. fold (isort l). by rewrite isort_perm.
Qed.

(** pandas' routine with a stable kind keeps equal keys in row order. *)
Lemma nargsort_ties_in_row_order ks :
  ties_in_row_order ks (nargsort false ks).
Proof.
  unfold nargsort.
  set (L := isort (rev (enumerate ks))).
  assert (Hs : StronglySorted (flip ties_fall) (rev L))
    by apply StronglySorted_rev, isort_ties, enumerate_rev_ties.
  assert (Hl : Forall (λ p, ks !! p.2 = Some p.1) (rev L))
    by apply rev_pairs_lookup, isort_lookup, rev_pairs_lookup, enumerate_lookup.
  rewrite <- map_rev. change (map snd (rev L)) with ((rev L).*2).
  intros a b i j k Hab Ha Hb Hi Hj.
  rewrite list_lookup_fmap in Ha, Hb.
  destruct (rev L !! a) as [p|] eqn:Hp; [|done].
  destruct (rev L !! b) as [q|] eqn:Hq; [|done].
  cbn in Ha, Hb. injection Ha as <-. injection Hb as <-.
  rewrite Forall_forall in Hl.
  pose proof (Hl p (list_elem_of_lookup_2 _ _ _ Hp)) as Hpk.
  pose proof (Hl q (list_elem_of_lookup_2 _ _ _ Hq)) as Hqk.
  apply (StronglySorted_lookup _ _ _ _ _ _ Hs Hab Hp Hq). congruence.
Qed.

Lemma ties_in_row_order_take ks idx n :
  ties_in_row_order ks idx → ties_in_row_order ks (take n idx).
Proof.
  intros Ht a b i j k Hab Ha Hb. apply lookup_take_Some in Ha as [Ha _].
  apply lookup_take_Some in Hb as [Hb _]. by apply (Ht a b).
Qed.
End StableFacts.

Lemma recent_indexer_stable_kind (df : frame) :
  ties_in_row_order (dt_key <$> index df)
    (recent_indexer (H := stable_sort) df).
Proof. apply ties_in_row_order_take, nargsort_ties_in_row_order. Qed.

(** * Well-formed frames stay well formed *)

Section WellFormedFacts.
Context `{IndexSort}.
Implicit Types (df : frame) (c : string) (col : list cell).

Lemma well_formed_get df c col :
  well_formed df → get c df = Some col → length col = nrows df.
Proof. intros Hwf Hget. exact (Hwf c col Hget). Qed.

Lemma well_formed_set c col df :
  well_formed df → length col = nrows df → well_formed (set c col df).
Proof.
  intros Hwf Hlen. unfold well_formed, set. cbn.
  apply map_Forall_insert_2; done.
Qed.

Lemma length_select {A B} (mask : list bool) (l : list A) (k : list B) :
  length l = length k → length (select mask l) = length (select mask k).
Proof.
  revert l k. induction mask as [|b mask IH]; intros [|x l] [|y k] Hlen;
    try done.
  cbn in *. destruct b; cbn; rewrite (IH l k); congruence.
Qed.

Lemma well_formed_select_rows mask df :
  well_formed df → well_formed (select_rows mask df).
Proof.
  intros Hwf c col Hcol. change (get c (select_rows mask df) = Some col) in Hcol.
  rewrite get_select_rows in Hcol. apply fmap_Some in Hcol as (src & Hsrc & ->).
  unfold nrows. cbn [index select_rows]. apply length_select.
  exact (Hwf c src Hsrc).
Qed.

Lemma well_formed_take_rows idx df :
  well_formed df → Forall (λ i, (i < nrows df)%nat) idx →
  well_formed (take_rows idx df).
Proof.
  intros Hwf Hidx c col Hcol. change (get c (take_rows idx df) = Some col) in Hcol.
  rewrite get_take_rows in Hcol. apply fmap_Some in Hcol as (src & Hsrc & ->).
  unfold nrows. cbn [index take_rows]. rewrite !gather_in_range; [done|done|].
  by rewrite (Hwf c src Hsrc).
Qed.

Lemma well_formed_sort_index ascending df :
  well_formed df → well_formed (sort_index ascending df).
Proof.
  intros Hwf. apply well_formed_take_rows; [done|].
  unfold nrows. rewrite <- (length_fmap dt_key (index df)).
  apply argsort_in_range.
Qed.

Lemma well_formed_add_time_components df :
  well_formed df → well_formed (add_time_components df).
Proof.
  intros Hwf. unfold add_time_components.
  repeat (apply well_formed_set; [|apply length_fmap]). done.
Qed.

Lemma length_series_div col k out :
  series_div col k = Some out → length out = length col.
Proof. intros Hm. symmetry. by eapply length_mapM. Qed.

Lemma length_series_mul col k out :
  series_mul col k = Some out → length out = length col.
Proof. intros Hm. symmetry. by eapply length_mapM. Qed.

Lemma length_broadcast df x : length (broadcast df x) = nrows df.
Proof. apply length_replicate. Qed.

Lemma well_formed_derive_distance df df' :
  well_formed df → derive_distance df = Some df' → well_formed df'.
Proof.
  intros Hwf. unfold derive_distance. repeat case_match; intros Hd.
  - apply bind_Some in Hd as (col & Hc & Hd).
    apply bind_Some in Hd as (km & Hk & [= <-]).
    apply well_formed_set; [done|].
    rewrite (length_series_div _ _ _ Hk). by eapply well_formed_get.
  - apply bind_Some in Hd as (col & Hc & [= <-]).
    apply well_formed_set; [done|]. by eapply well_formed_get.
  - injection Hd as <-. apply well_formed_set; [done|apply length_broadcast].
Qed.

Lemma well_formed_derive_time df df' :
  well_formed df → derive_time df = Some df' → well_formed df'.
Proof.
  intros Hwf. unfold derive_time. case_match; intros Hd.
  - apply bind_Some in Hd as (col & Hc & Hd).
    apply bind_Some in Hd as (hr & Hk & [= <-]).
    apply well_formed_set; [done|].
    rewrite (length_series_div _ _ _ Hk). by eapply well_formed_get.
  - injection Hd as <-. apply well_formed_set; [done|apply length_broadcast].
Qed.

Lemma well_formed_derive_elevation df df' :
  well_formed df → derive_elevation df = Some df' → well_formed df'.
Proof.
  intros Hwf. unfold derive_elevation. repeat case_match; intros Hd.
  - apply bind_Some in Hd as (col & Hc & [= <-]).
    apply well_formed_set; [done|]. by eapply well_formed_get.
  - apply bind_Some in Hd as (col & Hc & [= <-]).
    apply well_formed_set; [done|]. by eapply well_formed_get.
  - injection Hd as <-. apply well_formed_set; [done|apply length_broadcast].
Qed.

Lemma well_formed_derive_speed df df' :
  well_formed df → derive_speed df = Some df' → well_formed df'.
Proof.
  intros Hwf. unfold derive_speed. repeat case_match; intros Hd.
  - apply bind_Some in Hd as (col & Hc & Hd).
    apply bind_Some in Hd as (kmh & Hk & [= <-]).
    apply well_formed_set; [done|].
    rewrite (length_series_mul _ _ _ Hk). by eapply well_formed_get.
  - apply bind_Some in Hd as (dist & Hdist & Hd).
    apply bind_Some in Hd as (time & Htime & Hd).
    apply bind_Some in Hd as (kmh & Hk & [= <-]).
    apply well_formed_set; [done|].
    rewrite <- (length_mapM _ _ _ Hk), length_zip.
    rewrite (well_formed_get _ _ _ Hwf Hdist), (well_formed_get _ _ _ Hwf Htime).
    lia.
  - injection Hd as <-. apply well_formed_set; [done|apply length_broadcast].
Qed.

Lemma well_formed_derive_calories df :
  well_formed df → well_formed (derive_calories df).
Proof.
  intros Hwf. unfold derive_calories. case_match; [done|].
  apply well_formed_set; [done|apply length_broadcast].
Qed.

Lemma well_formed_fillna_cols cs df df' :
  well_formed df → fillna_cols cs df = Some df' → well_formed df'.
Proof.
  revert df. induction cs as [|c cs IH]; intros df Hwf Hf; cbn in Hf.
  - by injection Hf as <-.
  - apply bind_Some in Hf as (col & Hc & Hf). apply (λ Hw, IH _ Hw Hf).
    apply well_formed_set; [done|].
    unfold fillna_col. rewrite length_fmap. by eapply well_formed_get.
Qed.

Lemma well_formed_replace_infs df :
  well_formed df → well_formed (replace_infs df).
Proof.
  intros Hwf c col Hcol. change (get c (replace_infs df) = Some col) in Hcol.
  rewrite get_replace_infs in Hcol. apply fmap_Some in Hcol as (src & Hsrc & ->).
  unfold replace_col. rewrite length_fmap. exact (Hwf c src Hsrc).
Qed.

(** A well-formed file is loaded as a well-formed table. *)
Lemma well_formed_load_data raw df :
  well_formed raw → load_data raw = Some df → well_formed df.
Proof.
  intros Hwf Hl. unfold load_data in Hl.
  apply bind_Some in Hl as (d & Hd & Hl).
  apply bind_Some in Hl as (d' & Hf & [= <-]).
  apply well_formed_replace_infs.
  apply (λ Hw, well_formed_fillna_cols _ _ _ Hw Hf).
  destruct (derive_metrics_inv _ _ Hd) as (d1 & d2 & d3 & d4 & H1 & H2 & H3 & H4 & ->).
  apply well_formed_derive_calories.
  eapply well_formed_derive_speed; [|exact H4].
  eapply well_formed_derive_elevation; [|exact H3].
  eapply well_formed_derive_time; [|exact H2].
  eapply well_formed_derive_distance; [|exact H1].
  by apply well_formed_add_time_components, well_formed_sort_index.
Qed.

(** Filtering keeps a table well formed. *)
Lemma well_formed_df_filtered df selected_year selected_types filtered :
  well_formed df →
  df_filtered df selected_year selected_types = Some filtered →
  well_formed filtered.
Proof.
  intros Hwf Hf.
  apply df_filtered_inv in Hf as (d & options & Hy & _ & Ht).
  assert (well_formed d) as Hd.
  { destruct selected_year; cbn in Hy.
    - by injection Hy as <-.
    - apply bind_Some in Hy as (years & _ & [= <-]).
      by apply well_formed_select_rows. }
  unfold filter_types in Ht. case_match.
  - by injection Ht as <-.
  - apply bind_Some in Ht as (types & _ & [= <-]).
    by apply well_formed_select_rows.
Qed.

Lemma well_formed_check df : bool_decide (well_formed df) = true → well_formed df.
Proof. apply bool_decide_eq_true_1. Qed.
End WellFormedFacts.

(** * The filters *)

Section FilterFacts.
Implicit Types (df : frame) (c : string) (col : list cell) (mask : list bool).

Lemma select_sublist {A} mask (l : list A) : sublist (select mask l) l.
Proof.
  revert l. induction mask as [|b mask IH]; intros [|x l]; cbn;
    try apply sublist_nil_l.
  destruct b; [by apply sublist_skip|by apply sublist_cons].
Qed.

(** Selecting a column by a mask computed on itself keeps the cells that
    pass the test. *)
Lemma select_own_mask {A} (p : A → bool) (l : list A) :
  select (p <$> l) l = filter (λ x, p x = true) l.
Proof.
  induction l as [|x l IH]; [done|]. cbn [fmap list_fmap select].
  destruct (p x) eqn:Hp.
  - rewrite filter_cons_True by done. by rewrite IH.
  - rewrite filter_cons_False by (by rewrite Hp). done.
Qed.

Lemma length_select_mask {A B} (p : A → bool) (l : list A) (k : list B) :
  length l = length k →
  length (select (p <$> l) k) = length (filter (λ x, p x = true) l).
Proof.
  intros Hlen. rewrite <- select_own_mask.
  symmetry. by apply length_select.
Qed.

(** Two selections in a row are one selection by both masks. *)
Lemma select_select {A B} (m : list bool) (q : B → bool) (b : list B)
    (l : list A) :
  length b = length l → length m = length l →
  select (q <$> select m b) (select m l)
  = select (zip_with andb m (q <$> b)) l.
Proof.
  revert b l. induction m as [|x m IH]; intros [|y b] [|v l] Hb Hm;
    try done.
  cbn in Hb, Hm. cbn [select fmap list_fmap zip_with].
  destruct x; cbn [select fmap list_fmap andb].
  - destruct (q y); [f_equal|]; apply IH; lia.
  - apply IH; lia.
Qed.
End FilterFacts.

(** * Which rows the filters keep *)

Section MatchFacts.
Context `{IndexSort} {V : ValueSort}.
Implicit Types (df : frame) (c : string) (col years types : list cell)
  (mask : list bool).



Lemma Forall_select {A} (P : A → Prop) mask (l : list A) :
  Forall P l → Forall P (select mask l).
Proof.
  intros Hl. revert mask.
  induction Hl as [|x l Hx _ IH]; intros [|[] mask]; cbn; try done.
  by constructor.
Qed.










End MatchFacts.

(** * The rows of a group *)

Section GroupFacts.
Implicit Types (df : frame) (col types dist : list cell) (k : cell)
  (mask : list bool).

Lemma cell_eqb_eq x k : cell_isna k = false → cell_eqb x k = true ↔ x = k.
Proof.
  intros Hk. destruct x as [[| | |a]|s], k as [[| | |b]|u]; cbn in Hk |- *;
    try done; try (split; [done|by intros [=]]).
  - unfold Qc_eqb. rewrite bool_decide_eq_true.
    split; [by intros ->|by intros [= ->]].
  - rewrite bool_decide_eq_true. split; [by intros ->|by intros [= ->]].
Qed.

Lemma select_fmap {A B} (f : A → B) mask (l : list A) :
  select mask (f <$> l) = f <$> select mask l.
Proof.
  revert l. induction mask as [|b mask IH]; intros [|x l]; try done.
  cbn [fmap list_fmap select]. destruct b; cbn; by rewrite IH.
Qed.

Lemma elem_of_select {A} mask (l : list A) x :
  x ∈ select mask l ↔ ∃ i, mask !! i = Some true ∧ l !! i = Some x.
Proof.
  revert l. induction mask as [|b mask IH]; intros [|y l]; cbn [select].
  - split; [by intros ?%elem_of_nil|]. by intros (i & [=] & _).
  - split; [by intros ?%elem_of_nil|]. by intros (i & [=] & _).
  - split; [by intros ?%elem_of_nil|]. by intros (i & _ & [=]).
  - destruct b.
    + rewrite elem_of_cons, IH. split.
      * intros [->|(i & Hm & Hl)]; [by exists 0%nat|by exists (S i)].
      * intros ([|i] & Hm & Hl); [left; by injection Hl|right; by exists i].
    + rewrite IH. split.
      * intros (i & Hm & Hl). by exists (S i).
      * intros ([|i] & Hm & Hl); [done|by exists i].
Qed.

(** The mask of a group is the test for its key. *)
Lemma group_mask_key types k :
  cell_isna k = false →
  (λ x, cell_eqb x k) <$> types = (λ t, bool_decide (t = k)) <$> types.
Proof.
  intros Hk. apply list_fmap_ext. intros _ x _.
  destruct (decide (x = k)) as [->|Hne].
  - rewrite bool_decide_eq_true_2 by done. by apply cell_eqb_eq.
  - rewrite bool_decide_eq_false_2 by done.
    apply not_true_is_false. by rewrite cell_eqb_eq.
Qed.

(** The months of a group are the months its type has an activity in. *)
Lemma group_months df types k m :
  cell_isna k = false →
  m ∈ month_index <$> select ((λ x, cell_eqb x k) <$> types) (index df)
  ↔ active_month df types k m.
Proof.
  intros Hk. rewrite list_elem_of_fmap. unfold active_month.
  setoid_rewrite elem_of_select. split.
  - intros (d & -> & i & Hm & Hd).
    apply list_lookup_fmap_Some in Hm as (t & Ht & Hx).
    symmetry in Ht. apply (cell_eqb_eq _ _ Hk) in Ht as ->. eauto.
  - intros (i & d & Hd & Ht & <-). exists d. split; [done|].
    exists i. split; [|done]. rewrite list_lookup_fmap, Ht. cbn.
    f_equal. by apply cell_eqb_eq.
Qed.

(** The distances of one month of a group, read off the table. *)
Lemma group_bucket df types dist k m :
  cell_isna k = false →
  length types = nrows df → length dist = nrows df →
  select ((λ x, bool_decide (x = m))
            <$> (month_index <$> select ((λ x, cell_eqb x k) <$> types) (index df)))
    (select ((λ x, cell_eqb x k) <$> types) dist)
  = select (bucket_mask df types k m) dist.
Proof.
  intros Hk Ht Hd. unfold nrows in Ht, Hd.
  rewrite <- select_fmap, select_select.
  - unfold bucket_mask. rewrite (group_mask_key _ _ Hk).
    by rewrite <- list_fmap_compose.
  - rewrite length_fmap. congruence.
  - rewrite length_fmap. congruence.
Qed.

Lemma sum_from_is_Some acc col :
  Forall (λ c, is_num c = true) col → is_Some (sum_from acc col).
Proof.
  intros Hcol. revert acc.
  induction Hcol as [|[x|s] col Hx _ IH]; intros acc; cbn; [by eexists| |done].
  apply IH.
Qed.

Lemma resample_M_sum_is_Some c df col :
  get c df = Some col → Forall (λ x, is_num x = true) col →
  is_Some (resample_M_sum c df).
Proof.
  intros Hc Hnum. unfold resample_M_sum. rewrite Hc. cbn.
  apply mapM_is_Some, Forall_forall. intros m _. cbn.
  destruct (sum_from_is_Some zero
              (select ((λ x, bool_decide (x = m)) <$> (month_index <$> index df)) col))
    as [s Hs].
  { by apply Forall_select. }
  unfold series_sum. rewrite Hs. by eexists.
Qed.

(** With numbers for distances the monthly table is computed. *)
Lemma df_monthly_typed_is_Some df types dist :
  get "Activity Type" df = Some types →
  get "Distance_km" df = Some dist →
  Forall (λ x, is_num x = true) dist →
  is_Some (df_monthly_typed df).
Proof.
  intros Ht Hd Hnum. unfold df_monthly_typed. rewrite Ht. cbn.
  destruct (proj2 (mapM_is_Some (monthly_of_type df) (group_keys types)))
    as [rowss Hrowss].
  { apply Forall_forall. intros k _. cbn.
    unfold monthly_of_type, group_rows. rewrite Ht. cbn.
    destruct (resample_M_sum_is_Some "Distance_km"
                (select_rows ((λ x, cell_eqb x k) <$> types) df)
                (select ((λ x, cell_eqb x k) <$> types) dist)) as [bins Hb].
    { by rewrite get_select_rows, Hd. }
    { by apply Forall_select. }
    rewrite Hb. by eexists. }
  rewrite Hrowss. by eexists.
Qed.

End GroupFacts.

(** * The loader returns *)

Section TotalFacts.
Context `{IndexSort}.
Implicit Types (df : frame) (c : string) (col : list cell).

Lemma gather_Forall {A} (P : A → Prop) idx (l : list A) :
  Forall P l → Forall P (gather idx l).
Proof.
  intros Hl. apply Forall_forall. intros x Hx.
  unfold gather in Hx. apply list_elem_of_omap in Hx as (i & _ & Hi).
  rewrite Forall_forall in Hl. apply Hl. by eapply list_elem_of_lookup_2.
Qed.

Lemma series_div_total col k :
  Forall (λ v, is_num v = true) col → is_Some (series_div col k).
Proof.
  intros Hcol. unfold series_div. apply mapM_is_Some.
  eapply Forall_impl; [exact Hcol|]. intros [x|s] Hv; [by eexists|done].
Qed.

Lemma series_mul_total col k :
  Forall (λ v, is_num v = true) col → is_Some (series_mul col k).
Proof.
  intros Hcol. unfold series_mul. apply mapM_is_Some.
  eapply Forall_impl; [exact Hcol|]. intros [x|s] Hv; [by eexists|done].
Qed.

Lemma speed_rows_total dist time :
  Forall (λ v, is_num v = true) dist → Forall (λ v, is_num v = true) time →
  is_Some (mapM (λ dt : cell * cell, speed_of_row dt.1 dt.2) (zip dist time)).
Proof.
  intros Hd Ht. apply mapM_is_Some, Forall_forall. intros [d t] Hin.
  pose proof (elem_of_zip_l _ _ _ _ Hin) as Hdin.
  pose proof (elem_of_zip_r _ _ _ _ Hin) as Htin.
  rewrite Forall_forall in Hd, Ht.
  specialize (Hd d Hdin). specialize (Ht t Htin).
  destruct d as [x|]; [|done]. destruct t as [y|]; [|done].
  unfold compose. cbn [fst snd]. rewrite speed_of_row_num. by eexists.
Qed.

Lemma fillna_cols_total cs df :
  (∀ c, c ∈ cs → is_Some (get c df)) → is_Some (fillna_cols cs df).
Proof.
  revert df. induction cs as [|c cs IH]; intros df Hcs; cbn [fillna_cols].
  - by eexists.
  - destruct (Hcs c (list_elem_of_here _ _)) as [col Hcol].
    rewrite Hcol. cbn. apply IH. intros c' Hc'.
    destruct (decide (c = c')) as [->|Hne].
    + rewrite get_set_eq. by eexists.
    + rewrite get_set_ne by done. apply Hcs. by apply list_elem_of_further.
Qed.

Lemma derive_distance_total df :
  (∀ col, get "Distance.1" df = Some col → Forall (λ v, is_num v = true) col) →
  (∀ col, get "Distance" df = Some col → Forall (λ v, is_num v = true) col) →
  ∃ km, derive_distance df = Some (set "Distance_km" km df) ∧
    Forall (λ v, is_num v = true) km.
Proof.
  intros H1 H2. unfold derive_distance.
  destruct (has "Distance.1" df) eqn:Hh1.
  - apply has_true in Hh1 as [col Hcol]. rewrite Hcol. cbn.
    destruct (series_div_total col (of_Z 1000) (H1 _ Hcol)) as [km Hkm].
    rewrite Hkm. cbn. exists km. split; [done|]. by eapply series_div_numeric.
  - destruct (has "Distance" df) eqn:Hh2.
    + apply has_true in Hh2 as [col Hcol]. rewrite Hcol. cbn.
      exists col. split; [done|]. by apply H2.
    + eexists. split; [done|]. apply broadcast_numeric.
Qed.

Lemma derive_time_total df :
  (∀ col, get "Moving Time" df = Some col → Forall (λ v, is_num v = true) col) →
  ∃ hr, derive_time df = Some (set "Moving_Time_hr" hr df) ∧
    Forall (λ v, is_num v = true) hr.
Proof.
  intros H1. unfold derive_time.
  destruct (has "Moving Time" df) eqn:Hh1.
  - apply has_true in Hh1 as [col Hcol]. rewrite Hcol. cbn.
    destruct (series_div_total col (of_Z 3600) (H1 _ Hcol)) as [hr Hhr].
    rewrite Hhr. cbn. exists hr. split; [done|]. by eapply series_div_numeric.
  - eexists. split; [done|]. apply broadcast_numeric.
Qed.

Lemma derive_elevation_total df : is_Some (derive_elevation df).
Proof.
  unfold derive_elevation.
  destruct (has "Total Elevation Gain" df) eqn:Hh1.
  - apply has_true in Hh1 as [col ->]. by eexists.
  - destruct (has "Elevation Gain" df) eqn:Hh2; [|by eexists].
    apply has_true in Hh2 as [col ->]. by eexists.
Qed.

Lemma derive_speed_total df dist time :
  (∀ col, get "Average Speed" df = Some col → Forall (λ v, is_num v = true) col) →
  get "Distance_km" df = Some dist → get "Moving_Time_hr" df = Some time →
  Forall (λ v, is_num v = true) dist → Forall (λ v, is_num v = true) time →
  is_Some (derive_speed df).
Proof.
  intros Hs Hdist Htime Hd Ht. unfold derive_speed.
  destruct (has "Average Speed" df) eqn:Hh.
  - apply has_true in Hh as [col Hcol]. rewrite Hcol. cbn.
    destruct (series_mul_total col (of_Q (36 # 10)) (Hs _ Hcol)) as [kmh ->].
    by eexists.
  - assert (has "Distance_km" df = true) as -> by (apply has_true; eauto).
    assert (has "Moving_Time_hr" df = true) as -> by (apply has_true; eauto).
    cbn. rewrite Hdist, Htime. cbn.
    destruct (speed_rows_total _ _ Hd Ht) as [kmh ->]. by eexists.
Qed.

(** On a file whose source columns hold numbers the loader returns a
    table: no row raises, whatever its moving time. *)
Lemma load_data_total raw : numeric_sources raw → is_Some (load_data raw).
Proof.
  intros Hnum.
  set (d0 := add_time_components (sort_index true raw)).
  assert (Hsrc : ∀ c col, c ∈ source_cols → get c d0 = Some col →
            Forall (λ v, is_num v = true) col).
  { intros c col Hc Hget. unfold d0 in Hget.
    rewrite get_sorted_source in Hget.
    - apply fmap_Some in Hget as (src & Hsrc & ->).
      apply gather_Forall. by eapply Hnum.
    - unfold source_cols in Hc. unfold time_cols.
      repeat (apply elem_of_cons in Hc as [->|Hc]); [compute_done..|].
      by apply elem_of_nil in Hc. }
  destruct (derive_distance_total d0) as (km & H1 & Hkm).
  { intros col. apply Hsrc. compute_done. }
  { intros col. apply Hsrc. compute_done. }
  destruct (derive_time_total (set "Distance_km" km d0)) as (hr & H2 & Hhr).
  { intros col. rewrite get_set_ne by done. apply Hsrc. compute_done. }
  destruct (derive_elevation_total
              (set "Moving_Time_hr" hr (set "Distance_km" km d0))) as [d3 H3].
  destruct (derive_elevation_set _ _ H3) as [el ->].
  destruct (derive_speed_total
              (set "Elevation_Gain_m" el
                 (set "Moving_Time_hr" hr (set "Distance_km" km d0))) km hr)
    as [d4 H4]; [| | |done|done|].
  { intros col. rewrite !get_set_ne by done. apply Hsrc. compute_done. }
  { rewrite !get_set_ne by done. apply get_set_eq. }
  { rewrite get_set_ne by done. apply get_set_eq. }
  assert (Hd : derive_metrics raw = Some (derive_calories d4)).
  { unfold derive_metrics. fold d0. rewrite H1. cbn. rewrite H2. cbn.
    rewrite H3. cbn. by rewrite H4. }
  destruct (fillna_cols_total key_cols (derive_calories d4)) as [d5 H5].
  { intros c Hc. by eapply derive_metrics_key_cols. }
  exists (replace_infs d5). unfold load_data.
  apply bind_Some. exists (derive_calories d4). split; [done|].
  apply bind_Some. by exists d5.
Qed.
End TotalFacts.

(** * The claims *)



(** C9.  The replacement of infinite values reaches every column of the
    table, not only the key columns: each column [load_data] returns is
    the column as it stood after [fillna], with +inf and -inf replaced by
    0, and no cell of any column is infinite. *)
Theorem load_data_no_infinity_anywhere `{IndexSort} (raw df : frame) :
  load_data raw = Some df →
  ∃ d, (derive_metrics raw ≫= fillna_cols key_cols) = Some d ∧
    index df = index d ∧
    (∀ c, get c df = replace_col <$> get c d) ∧
    (∀ c before i v, get c d = Some before → before !! i = Some v →
       ∃ col, get c df = Some col ∧
         col !! i = Some (if cell_isinf v then Num zero else v)) ∧
    (∀ c col, get c df = Some col → Forall (λ v, cell_isinf v = false) col).
Proof.
  unfold load_data. intros Hl.
  apply bind_Some in Hl as (d0 & Hd & Hl).
  apply bind_Some in Hl as (d & Hf & Hl). injection Hl as <-.
  exists d. rewrite Hd. simpl. repeat split; try done.
  - intros c. apply get_replace_infs.
  - intros c before i v Hb Hv. exists (replace_col before).
    rewrite get_replace_infs, Hb. split; [done|].
    unfold replace_col. by rewrite list_lookup_fmap, Hv.
  - intros c col. rewrite get_replace_infs.
    destruct (get c d) as [before|]; [|done]. simpl. intros [= <-].
    unfold replace_col. apply Forall_fmap, Forall_true. intros v.
    apply replace_inf_not_inf.
Qed.

Lemma load_data_no_infinity_anywhere_witness :
  ∃ df, load_data (H := stable_sort) sample_raw = Some df ∧
    ∃ d, (derive_metrics (H := stable_sort) sample_raw ≫= fillna_cols key_cols) = Some d ∧
      index df = index d ∧
      (∀ c, get c df = replace_col <$> get c d) ∧
      (∀ c before i v, get c d = Some before → before !! i = Some v →
         ∃ col, get c df = Some col ∧
           col !! i = Some (if cell_isinf v then Num zero else v)) ∧
      (∀ c col, get c df = Some col → Forall (λ v, cell_isinf v = false) col).
Proof.
  exists (loaded sample_raw). split; [vm_compute; reflexivity|].
  apply (load_data_no_infinity_anywhere (H := stable_sort) sample_raw).
  vm_compute. reflexivity.
Defined.

(** C4.  With no ['Average Speed'] column the speed is derived row by
    row: it is the distance over the hours where the hours are greater
    than zero and 0 otherwise.  A row whose ['Moving Time'] is 0 gets hours
    0 and speed 0, in the derived and in the loaded table, and the row
    function returns 0 there whatever the distance cell holds: nothing is
    divided. *)
Theorem derived_speed_guarded `{IndexSort} (raw df : frame) :
  has "Average Speed" raw = false →
  load_data raw = Some df →
  ∃ d dist time speed final,
    derive_metrics raw = Some d ∧
    get "Distance_km" d = Some dist ∧
    get "Moving_Time_hr" d = Some time ∧
    get "Average_Speed_kmh" d = Some speed ∧
    get "Average_Speed_kmh" df = Some final ∧
    length speed = length (zip dist time) ∧
    (∀ i x t, dist !! i = Some (Num x) → time !! i = Some (Num t) →
       speed !! i
       = Some (Num (if Number.gtb t zero then Number.div x t else zero))) ∧
    (∀ i moving, get "Moving Time" d = Some moving →
       moving !! i = Some (Num zero) → (i < length dist)%nat →
       time !! i = Some (Num zero) ∧
       speed !! i = Some (Num zero) ∧
       final !! i = Some (Num zero)) ∧
    (∀ dc, speed_of_row dc (Num zero) = Some (Num zero)).
Proof.
  intros Hno Hl.
  destruct (load_data_get _ _ "Average_Speed_kmh" Hl) as (d & Hd & _ & Hfinal).
  rewrite decide_True in Hfinal by compute_done.
  destruct (derive_metrics_inv _ _ Hd) as (d1 & d2 & d3 & d4 & H1 & H2 & H3 & H4 & ->).
  destruct (derive_distance_set _ _ H1) as [dist ->].
  destruct (derive_time_inv _ _ H2) as (time & -> & Hnum & Hmoving).
  destruct (derive_elevation_set _ _ H3) as [el ->].
  eapply derive_speed_inv in H4 as (speed & -> & Hrows).
  2:{ rewrite !has_set_ne by done. by rewrite has_sorted_source by compute_done. }
  2:{ rewrite !get_set_ne by done. apply get_set_eq. }
  2:{ rewrite get_set_ne by done. apply get_set_eq. }
  rewrite derive_calories_ne in Hfinal by done. rewrite get_set_eq in Hfinal.
  exists (derive_calories
            (set "Average_Speed_kmh" speed
               (set "Elevation_Gain_m" el
                  (set "Moving_Time_hr" time
                     (set "Distance_km" dist
                        (add_time_components (sort_index true raw))))))).
  exists dist, time, speed, (clean_col speed).
  assert (Hrow : ∀ i dc tc, dist !! i = Some dc → time !! i = Some tc →
            ∃ s, speed !! i = Some s ∧ speed_of_row dc tc = Some s).
  { intros i dc tc Hdc Htc.
    assert ((zip dist time) !! i = Some (dc, tc)) as Hz
      by by apply lookup_zip_Some.
    destruct (Forall2_lookup_l _ _ _ _ _ Hrows Hz) as (s & Hs & Hrs). eauto. }
  split; [done|].
  split. { rewrite derive_calories_ne by done. rewrite !get_set_ne by done. apply get_set_eq. }
  split. { rewrite derive_calories_ne by done. rewrite !get_set_ne by done. apply get_set_eq. }
  split. { rewrite derive_calories_ne by done. by rewrite get_set_eq. }
  split; [done|].
  split. { symmetry. by eapply Forall2_length. }
  split.
  { intros i x t Hx Ht. destruct (Hrow _ _ _ Hx Ht) as (s & -> & Hs).
    by rewrite speed_of_row_num in Hs. }
  split; [|apply speed_of_row_zero].
  intros i moving Hm Hi Hlt.
  rewrite derive_calories_ne in Hm by done. rewrite !get_set_ne in Hm by done.
  specialize (Hmoving moving).
  rewrite !get_set_ne in Hmoving by done. specialize (Hmoving Hm).
  apply mapM_Some_1 in Hmoving.
  destruct (Forall2_lookup_l _ _ _ _ _ Hmoving Hi) as (tc & Htc & Hdiv).
  cbv beta iota delta [cell_div] in Hdiv. rewrite zero_div_3600 in Hdiv. injection Hdiv as <-.
  destruct (lookup_lt_is_Some_2 dist i Hlt) as [dc Hdc].
  destruct (Hrow _ _ _ Hdc Htc) as (s & Hs & Hrs).
  rewrite speed_of_row_zero in Hrs. injection Hrs as <-.
  repeat split; [done..|].
  unfold clean_col. by rewrite list_lookup_fmap, Hs.
Qed.

Lemma derived_speed_guarded_witness :
  ∃ df, has "Average Speed" sample_raw = false ∧
    load_data (H := stable_sort) sample_raw = Some df ∧
    ∃ d dist time speed final,
      derive_metrics (H := stable_sort) sample_raw = Some d ∧
      get "Distance_km" d = Some dist ∧
      get "Moving_Time_hr" d = Some time ∧
      get "Average_Speed_kmh" d = Some speed ∧
      get "Average_Speed_kmh" df = Some final ∧
      length speed = length (zip dist time) ∧
      (∀ i x t, dist !! i = Some (Num x) → time !! i = Some (Num t) →
         speed !! i
         = Some (Num (if Number.gtb t zero then Number.div x t else zero))) ∧
      (∀ i moving, get "Moving Time" d = Some moving →
         moving !! i = Some (Num zero) → (i < length dist)%nat →
         time !! i = Some (Num zero) ∧
         speed !! i = Some (Num zero) ∧
         final !! i = Some (Num zero)) ∧
      (∀ dc, speed_of_row dc (Num zero) = Some (Num zero)).
Proof.
  exists (loaded sample_raw). split; [vm_compute; reflexivity|].
  split; [vm_compute; reflexivity|].
  apply (derived_speed_guarded (H := stable_sort) sample_raw).
  - vm_compute. reflexivity.
  - vm_compute. reflexivity.
Defined.

(** C7, as the code has it.  The normalized elevation is the source
    elevation itself, taken from ['Total Elevation Gain'], else from
    ['Elevation Gain'], else 0, in index order and with NaN and the
    infinities replaced by 0.  No magnitude is taken: a finite value,
    negative or not, is kept as it is. *)
Theorem elevation_is_source_value `{IndexSort} (raw df : frame) :
  load_data raw = Some df →
  ∃ elev,
    get "Elevation_Gain_m" df = Some elev ∧
    (∀ src, get "Total Elevation Gain" raw = Some src →
       elev = clean_col (gather (argsort true (dt_key <$> index raw)) src)) ∧
    (get "Total Elevation Gain" raw = None →
     ∀ src, get "Elevation Gain" raw = Some src →
       elev = clean_col (gather (argsort true (dt_key <$> index raw)) src)) ∧
    (get "Total Elevation Gain" raw = None →
     get "Elevation Gain" raw = None →
     elev = replicate (nrows df) (Num zero)) ∧
    (∀ q : Qc, clean (Num (Fin q)) = Num (Fin q)).
Proof.
  intros Hl.
  destruct (load_data_get _ _ "Elevation_Gain_m" Hl) as (d & Hd & Hix & Hfinal).
  rewrite decide_True in Hfinal by compute_done.
  pose proof (derive_metrics_index _ _ Hd) as Hixd.
  destruct (derive_metrics_inv _ _ Hd) as (d1 & d2 & d3 & d4 & H1 & H2 & H3 & H4 & ->).
  destruct (derive_distance_set _ _ H1) as [dist ->].
  destruct (derive_time_set _ _ H2) as [time ->].
  destruct (derive_elevation_inv _ _ H3) as (el & -> & Ht & He & Hn).
  destruct (derive_speed_set _ _ H4) as [speed ->].
  rewrite derive_calories_ne in Hfinal by done.
  rewrite get_set_ne, get_set_eq in Hfinal by done. simpl in Hfinal.
  assert (Hsrc : ∀ c, c ∉ time_cols → c ≠ "Distance_km"%string →
            c ≠ "Moving_Time_hr"%string →
            get c (set "Moving_Time_hr" time
                     (set "Distance_km" dist
                        (add_time_components (sort_index true raw))))
            = gather (argsort true (dt_key <$> index raw)) <$> get c raw).
  { intros c ? ? ?. rewrite !get_set_ne by done. by apply get_sorted_source. }
  rewrite (Hsrc "Total Elevation Gain"%string) in Ht, He, Hn by compute_done.
  rewrite (Hsrc "Elevation Gain"%string) in He, Hn by compute_done.
  exists (clean_col el). split; [done|].
  split. { intros src Hs. rewrite Hs in Ht. by rewrite (Ht _ eq_refl). }
  split. { intros Hnone src Hs. rewrite Hnone, Hs in He. by rewrite (He eq_refl _ eq_refl). }
  split; [|apply clean_finite].
  intros Hn1 Hn2. rewrite Hn1, Hn2 in Hn. rewrite (Hn eq_refl eq_refl).
  unfold broadcast. rewrite clean_col_zeros. f_equal.
  unfold nrows. by rewrite Hix, Hixd.
Qed.

Lemma elevation_is_source_value_witness :
  ∃ df, load_data (H := stable_sort) sample_raw = Some df ∧
    ∃ elev,
      get "Elevation_Gain_m" df = Some elev ∧
      (∀ src, get "Total Elevation Gain" sample_raw = Some src →
         elev = clean_col
                  (gather (argsort (IndexSort := stable_sort) true
                             (dt_key <$> index sample_raw)) src)) ∧
      (get "Total Elevation Gain" sample_raw = None →
       ∀ src, get "Elevation Gain" sample_raw = Some src →
         elev = clean_col
                  (gather (argsort (IndexSort := stable_sort) true
                             (dt_key <$> index sample_raw)) src)) ∧
      (get "Total Elevation Gain" sample_raw = None →
       get "Elevation Gain" sample_raw = None →
       elev = replicate (nrows df) (Num zero)) ∧
      (∀ q : Qc, clean (Num (Fin q)) = Num (Fin q)).
Proof.
  exists (loaded sample_raw). split; [vm_compute; reflexivity|].
  apply (elevation_is_source_value (H := stable_sort) sample_raw).
  vm_compute. reflexivity.
Defined.

(** C7, as the claim states it, fails: the second activity in date order
    has source elevation -5, and the loaded table holds -5 for it, which
    is not its magnitude. *)
Lemma elevation_magnitude_counterexample :
  ∃ df src elev,
    load_data (H := stable_sort) sample_raw = Some df ∧
    get "Total Elevation Gain" (sort_index (H := stable_sort) true sample_raw)
      = Some src ∧
    get "Elevation_Gain_m" df = Some elev ∧
    src !! 1%nat = Some (Num (of_Z (-5))) ∧
    elev !! 1%nat = Some (Num (of_Z (-5))) ∧
    elev !! 1%nat ≠ magnitude <$> src !! 1%nat.
Proof.
  exists (loaded sample_raw).
  eexists _, _.
  split; [vm_compute; reflexivity|].
  split; [vm_compute; reflexivity|].
  split; [vm_compute; reflexivity|].
  split; [vm_compute; reflexivity|].
  split; [vm_compute; reflexivity|].
  intros Heq. vm_compute in Heq. discriminate Heq.
Qed.



(** Where the table has no type column, or a row without a type next to
    a row with one, line 106 raises and there is no filtered table,
    whatever is chosen. *)
Lemma df_filtered_raises_without_types (df : frame)
    (selected_types : list string) :
  get "Activity Type" df = None →
  df_filtered df AllYears selected_types = None.
Proof.
  intros Hg. unfold df_filtered. cbn. by rewrite all_types_missing.
Qed.

Lemma df_filtered_raises_on_untyped_row (df : frame) (types : list cell)
    (x : num) (s : string) (selected_types : list string) :
  get "Activity Type" df = Some types →
  Num x ∈ types → Str s ∈ types →
  df_filtered df AllYears selected_types = None.
Proof.
  intros Hg Hx Hs. unfold df_filtered. cbn.
  by rewrite (all_types_mixed _ _ _ _ Hg Hx Hs).
Qed.

Example untyped_row_raises :
  load_data (H := stable_sort) untyped_raw = Some (loaded untyped_raw) ∧
  df_filtered (loaded untyped_raw) AllYears [all_activities] = None ∧
  dashboard (H := stable_sort) (V := stable_values) (loaded untyped_raw)
    (OneYear 2024) ["Swim"%string] = None.
Proof.
  split; [vm_compute; reflexivity|].
  split; vm_compute; reflexivity.
Qed.



(** C2, at the input where it fails.  One activity with speed 0 is
    loaded and left unfiltered: no row has a speed greater than zero, and
    the summary's average speed is the mean of nothing, NaN, where the
    claim says 0.  The breakdown table, which takes the same mean and then
    calls [fillna(0)], shows 0 for the same table. *)
Theorem avg_speed_nan_without_positive_speed :
  ∃ df filtered speeds rows,
    load_data (H := stable_sort) idle_raw = Some df ∧
    df_filtered df AllYears [all_activities] = Some filtered ∧
    nrows filtered = 1%nat ∧
    get "Average_Speed_kmh" filtered = Some speeds ∧
    positive_values speeds = [] ∧
    avg_speed filtered = Some NaN ∧
    df_summary (V := stable_values) filtered = Some rows ∧
    Forall (λ r, Number.eqb (Avg_Speed_kmh r) zero = true) rows ∧
    length rows = 1%nat.
Proof.
  exists (loaded idle_raw), (loaded idle_raw).
  eexists _, _.
  split; [vm_compute; reflexivity|].
  split; [vm_compute; reflexivity|].
  split; [vm_compute; reflexivity|].
  split; [vm_compute; reflexivity|].
  split; [vm_compute; reflexivity|].
  split; [vm_compute; reflexivity|].
  split; [vm_compute; reflexivity|].
  split; [|vm_compute; reflexivity].
  repeat constructor.
Qed.




(** C10.  For a table whose distances are numbers the monthly table is
    computed, and in it the rows of an activity type are, month by month,
    the calendar months from the earliest to the latest month in which a
    row of this type lies, each once and in order; the distance of such a
    row is the sum over the rows of the table that have this type and lie
    in this month, and a month without any is there with the sum 0. *)
Theorem monthly_buckets_cover_span (filtered : frame) (types dist : list cell)
    (k : cell) :
  well_formed filtered →
  get "Activity Type" filtered = Some types →
  get "Distance_km" filtered = Some dist →
  Forall (λ x, is_num x = true) dist →
  k ∈ types → cell_isna k = false →
  ∃ table rows,
    df_monthly_typed filtered = Some table ∧
    rows = filter (λ r, mr_type r = k) table ∧
    (∀ m, m ∈ mr_month <$> rows ↔
       ∃ lo hi, active_month filtered types k lo ∧
         active_month filtered types k hi ∧ lo ≤ m ≤ hi) ∧
    (∀ i m m', (mr_month <$> rows) !! i = Some m →
       (mr_month <$> rows) !! S i = Some m' → m' = m + 1) ∧
    (∀ r, r ∈ rows →
       series_sum (select (bucket_mask filtered types k (mr_month r)) dist)
       = Some (mr_distance r)) ∧
    (∀ r, r ∈ rows → ¬ active_month filtered types k (mr_month r) →
       mr_distance r = zero).
Proof.
  intros Hwf Htypes Hdist Hnum Hin Hna.
  destruct (df_monthly_typed_is_Some _ _ _ Htypes Hdist Hnum) as [table Htable].
  exists table, (filter (λ r, mr_type r = k) table).
  split; [done|]. split; [done|].
  unfold df_monthly_typed in Htable.
  rewrite Htypes in Htable. cbn in Htable.
  apply bind_Some in Htable as (rowss & Hrowss & [= <-]).
  apply mapM_Some_1 in Hrowss.
  pose proof (monthly_rows_of_type _ _ _ k Hrowss (group_keys_NoDup _)) as Hk.
  specialize (Hk (proj2 (elem_of_group_keys _ _) (conj Hin Hna))).
  destruct (monthly_of_type_span _ _ _ Hk)
    as (g & dist' & Hg & Hd & Hspan & Hstep & Hsum & Hzero).
  unfold group_rows in Hg. rewrite Htypes in Hg. cbn in Hg.
  injection Hg as <-.
  rewrite get_select_rows, Hdist in Hd. cbn in Hd. injection Hd as <-.
  cbn [index select_rows] in Hspan, Hsum, Hzero.
  pose proof (Hwf _ _ Htypes) as Hlt. pose proof (Hwf _ _ Hdist) as Hld.
  split.
  { intros m. rewrite Hspan. by setoid_rewrite (group_months _ _ _ _ Hna). }
  split; [done|].
  split.
  - intros r Hr. destruct (Hsum r Hr) as [_ Hs].
    by rewrite group_bucket in Hs.
  - intros r Hr Hnone. apply (Hzero r Hr).
    by rewrite group_months.
Qed.

Lemma monthly_buckets_cover_span_witness :
  ∃ types dist,
    load_data (H := stable_sort) sample_raw = Some (loaded sample_raw) ∧
    well_formed (loaded sample_raw) ∧
    get "Activity Type" (loaded sample_raw) = Some types ∧
    get "Distance_km" (loaded sample_raw) = Some dist ∧
    Forall (λ x, is_num x = true) dist ∧
    Str "Run" ∈ types ∧
    cell_isna (Str "Run") = false ∧
    ∃ table rows,
      df_monthly_typed (loaded sample_raw) = Some table ∧
      rows = filter (λ r, mr_type r = Str "Run") table ∧
      (∀ m, m ∈ mr_month <$> rows ↔
         ∃ lo hi, active_month (loaded sample_raw) types (Str "Run") lo ∧
           active_month (loaded sample_raw) types (Str "Run") hi ∧
           lo ≤ m ≤ hi) ∧
      (∀ i m m', (mr_month <$> rows) !! i = Some m →
         (mr_month <$> rows) !! S i = Some m' → m' = m + 1) ∧
      (∀ r, r ∈ rows →
         series_sum
           (select (bucket_mask (loaded sample_raw) types (Str "Run")
                      (mr_month r)) dist)
         = Some (mr_distance r)) ∧
      (∀ r, r ∈ rows →
         ¬ active_month (loaded sample_raw) types (Str "Run") (mr_month r) →
         mr_distance r = zero).
Proof.
  eexists _, _.
  split; [vm_compute; reflexivity|].
  split; [apply well_formed_check; vm_compute; reflexivity|].
  split; [vm_compute; reflexivity|].
  split; [vm_compute; reflexivity|].
  split; [repeat constructor|].
  split; [apply list_elem_of_here|].
  split; [reflexivity|].
  eapply monthly_buckets_cover_span.
  - apply well_formed_check. vm_compute. reflexivity.
  - vm_compute. reflexivity.
  - vm_compute. reflexivity.
  - repeat constructor.
  - apply list_elem_of_here.
  - reflexivity.
Defined.

(** The runs of the sample lie in January 2023 and February 2024: the
    monthly table holds fourteen rows for them, from "2023-01" to
    "2024-02". *)
Example monthly_sample_run_months :
  ∃ df table,
    load_data (H := stable_sort) sample_raw = Some df ∧
    df_monthly_typed df = Some table ∧
    mr_label <$> filter (λ r, mr_type r = Str "Run") table
    = ["2023-01"; "2023-02"; "2023-03"; "2023-04"; "2023-05"; "2023-06";
       "2023-07"; "2023-08"; "2023-09"; "2023-10"; "2023-11"; "2023-12";
       "2024-01"; "2024-02"]%string.
Proof.
  exists (loaded sample_raw).
  eexists _.
  split; [vm_compute; reflexivity|].
  split; [vm_compute; reflexivity|].
  vm_compute. reflexivity.
Qed.

(** C6, as the code has it.  For a filtered table of more than 20 rows
    the recent-activity view has exactly 20 rows, distinct rows of the
    table, in descending date order, and no row left out is later than a
    row shown; its columns are those of the display list the table has,
    each taken at the 20 rows and, if numeric, rounded to one decimal.
    The order of rows with equal dates is whatever the sorting routine
    gives: the default quicksort promises none. *)
Theorem recent_view_latest_twenty `{IndexSort} (filtered : frame) :
  well_formed filtered →
  (20 < nrows filtered)%nat →
  nrows (recent_activities filtered) = 20%nat ∧
  length (recent_indexer filtered) = 20%nat ∧
  NoDup (recent_indexer filtered) ∧
  Forall (λ i, (i < nrows filtered)%nat) (recent_indexer filtered) ∧
  index (recent_activities filtered)
  = gather (recent_indexer filtered) (index filtered) ∧
  StronglySorted Z.ge (dt_key <$> index (recent_activities filtered)) ∧
  (∀ j k, (dt_key <$> index filtered) !! j = Some k →
     j ∉ recent_indexer filtered →
     Forall (λ k', k ≤ k') (dt_key <$> index (recent_activities filtered))) ∧
  (∀ c, is_Some (get c (recent_activities filtered)) ↔
     c ∈ recent_cols ∧ is_Some (get c filtered)) ∧
  (∀ c col, c ∈ recent_cols → get c filtered = Some col →
     get c (recent_activities filtered)
     = Some (round_col round1 (gather (recent_indexer filtered) col))) ∧
  (∀ c col, get c (recent_activities filtered) = Some col →
     length col = 20%nat ∧
     (Forall (λ v, is_num v = true) col →
      Forall (λ v, ∀ x, v = Num x → is_finite x = true → one_decimal x) col)).
Proof.
  intros Hwf Hrows.
  set (keys := dt_key <$> index filtered).
  set (A := argsort false keys).
  assert (Hklen : length keys = nrows filtered)
    by (unfold keys, nrows; apply length_fmap).
  assert (HAlen : length A = nrows filtered)
    by (unfold A; by rewrite argsort_length).
  assert (HArange : Forall (λ i, (i < nrows filtered)%nat) A).
  { rewrite <- Hklen. apply argsort_in_range. }
  assert (Hidx : recent_indexer filtered = take 20 A) by done.
  assert (Hix : index (recent_activities filtered)
                = gather (take 20 A) (index filtered)).
  { rewrite index_recent_activities. by apply gather_take. }
  assert (Hkeys : dt_key <$> index (recent_activities filtered)
                  = gather (take 20 A) keys).
  { rewrite Hix. unfold keys. by rewrite gather_fmap. }
  assert (Hsorted : StronglySorted Z.ge
                      (gather (take 20 A) keys ++ gather (drop 20 A) keys)).
  { rewrite <- gather_app, take_drop. apply (argsort_sorted false). }
  assert (Hcol : ∀ c col, c ∈ recent_cols → get c filtered = Some col →
            get c (recent_activities filtered)
            = Some (round_col round1 (gather (take 20 A) col))).
  { intros c col Hc Hget. rewrite get_recent_activities, decide_True by done.
    rewrite Hget. cbn. do 2 f_equal. apply gather_take.
    by rewrite (Hwf c col Hget). }
  rewrite Hidx.
  split. { unfold nrows. rewrite Hix, gather_in_range.
           - rewrite length_take_le; lia.
           - apply Forall_take. exact HArange. }
  split. { rewrite length_take_le; lia. }
  split. { apply (NoDup_take_drop 20 A). apply argsort_NoDup. }
  split. { by apply Forall_take. }
  split; [done|].
  split. { rewrite Hkeys. by apply StronglySorted_app_1_l in Hsorted. }
  split.
  { intros j k Hj Hnot. rewrite Hkeys. apply Forall_forall. intros k' Hk'.
    apply Z.ge_le. eapply (StronglySorted_app_1_elem_of _ _ _ _ _ Hsorted); [done|].
    assert (j ∈ A) as HjA.
    { unfold A. rewrite (argsort_perm false keys). apply elem_of_seq.
      apply lookup_lt_Some in Hj. lia. }
    rewrite <- (take_drop 20 A) in HjA.
    apply elem_of_app in HjA as [?|HjA]; [done|].
    unfold gather. apply list_elem_of_omap. by exists j. }
  split.
  { intros c. rewrite get_recent_activities.
    destruct (decide (c ∈ recent_cols)) as [Hc|Hc].
    - rewrite fmap_is_Some. tauto.
    - split; [by intros [? ?]|tauto]. }
  split; [done|].
  intros c col Hget. rewrite get_recent_activities in Hget.
  destruct (decide (c ∈ recent_cols)) as [Hc|Hc]; [|done].
  destruct (get c filtered) as [src|] eqn:Hsrc; [|done].
  cbn in Hget. injection Hget as <-. fold keys. fold A. split.
  - rewrite length_round_col, gather_take by (by rewrite (Hwf c src Hsrc)).
    rewrite gather_in_range.
    + rewrite length_take_le; lia.
    + rewrite (Hwf c src Hsrc). by apply Forall_take.
  - apply round_col_one_decimal.
Qed.

Lemma recent_view_latest_twenty_witness :
  ∃ df filtered,
    load_data (H := stable_sort) tied_raw = Some df ∧
    df_filtered df AllYears [all_activities] = Some filtered ∧
    well_formed filtered ∧
    (20 < nrows filtered)%nat ∧
    nrows (recent_activities (H := stable_sort) filtered) = 20%nat ∧
    length (recent_indexer (H := stable_sort) filtered) = 20%nat ∧
    NoDup (recent_indexer (H := stable_sort) filtered) ∧
    Forall (λ i, (i < nrows filtered)%nat) (recent_indexer (H := stable_sort) filtered) ∧
    index (recent_activities (H := stable_sort) filtered)
    = gather (recent_indexer (H := stable_sort) filtered) (index filtered) ∧
    StronglySorted Z.ge (dt_key <$> index (recent_activities (H := stable_sort) filtered)) ∧
    (∀ j k, (dt_key <$> index filtered) !! j = Some k →
       j ∉ recent_indexer (H := stable_sort) filtered →
       Forall (λ k', k ≤ k') (dt_key <$> index (recent_activities (H := stable_sort) filtered))) ∧
    (∀ c, is_Some (get c (recent_activities (H := stable_sort) filtered)) ↔
       c ∈ recent_cols ∧ is_Some (get c filtered)) ∧
    (∀ c col, c ∈ recent_cols → get c filtered = Some col →
       get c (recent_activities (H := stable_sort) filtered)
       = Some (round_col round1 (gather (recent_indexer (H := stable_sort) filtered) col))) ∧
    (∀ c col, get c (recent_activities (H := stable_sort) filtered) = Some col →
       length col = 20%nat ∧
       (Forall (λ v, is_num v = true) col →
        Forall (λ v, ∀ x, v = Num x → is_finite x = true → one_decimal x) col)).
Proof.
  exists (loaded tied_raw), (loaded tied_raw).
  split; [vm_compute; reflexivity|].
  split; [vm_compute; reflexivity|].
  assert (Hwf : ∀ f, bool_decide (well_formed f) = true → well_formed f)
    by (intros f; apply bool_decide_eq_true_1).
  split; [apply Hwf; vm_compute; reflexivity|].
  split; [vm_compute; lia|].
  apply (recent_view_latest_twenty (H := stable_sort)).
  - apply Hwf. vm_compute. reflexivity.
  - vm_compute. lia.
Defined.

(** C6, as the claim states it, fails for a sorting routine that meets
    the contract of the default quicksort.  In the filtered table "First"
    is row 19 and "Second" row 20, with the same date; the view shows
    "Second" before "First". *)
Lemma recent_view_ties_counterexample :
  ∃ df filtered names shown,
    load_data (H := mirror_sort) tied_raw = Some df ∧
    df_filtered df AllYears [all_activities] = Some filtered ∧
    (20 < nrows filtered)%nat ∧
    get "Activity Name" filtered = Some names ∧
    names !! 19%nat = Some (Str "First") ∧
    names !! 20%nat = Some (Str "Second") ∧
    index filtered !! 19%nat = index filtered !! 20%nat ∧
    get "Activity Name" (recent_activities (H := mirror_sort) filtered)
      = Some shown ∧
    take 2 shown = [Str "Second"; Str "First"] ∧
    take 2 (recent_indexer (H := mirror_sort) filtered) = [20%nat; 19%nat] ∧
    ¬ ties_in_row_order (dt_key <$> index filtered)
        (recent_indexer (H := mirror_sort) filtered).
Proof.
  exists (default tied_raw (load_data (H := mirror_sort) tied_raw)).
  exists (default tied_raw (load_data (H := mirror_sort) tied_raw)).
  eexists _, _.
  split; [vm_compute; reflexivity|].
  split; [vm_compute; reflexivity|].
  split; [vm_compute; lia|].
  split; [vm_compute; reflexivity|].
  split; [vm_compute; reflexivity|].
  split; [vm_compute; reflexivity|].
  split; [vm_compute; reflexivity|].
  split; [vm_compute; reflexivity|].
  split; [vm_compute; reflexivity|].
  split; [vm_compute; reflexivity|].
  intros Hties.
  assert (20 < 19)%nat as Hlt; [|lia].
  eapply (Hties 0%nat 1%nat 20%nat 19%nat); [lia|vm_compute; reflexivity..].
Qed.

(** * Further properties of the loader *)

Section LoaderMore.
Context `{IndexSort}.
Implicit Types (df raw : frame) (c : string) (col : list cell).

Lemma load_data_index raw df :
  load_data raw = Some df →
  index df = gather (argsort true (dt_key <$> index raw)) (index raw).
Proof.
  intros Hl. destruct (load_data_get _ _ "Year" Hl) as (d & Hd & -> & _).
  by rewrite (derive_metrics_index _ _ Hd).
Qed.

Lemma gather_has_text idx col s :
  Permutation idx (seq 0 (length col)) → Str s ∈ col → ∃ s', Str s' ∈ gather idx col.
Proof.
  intros Hp Hin. exists s. by rewrite (gather_argsort_perm _ _ Hp).
Qed.

Lemma series_div_text col k s : Str s ∈ col → series_div col k = None.
Proof.
  intros Hin. unfold series_div. apply mapM_None, Exists_exists.
  by exists (Str s).
Qed.

Lemma series_mul_text col k s : Str s ∈ col → series_mul col k = None.
Proof.
  intros Hin. unfold series_mul. apply mapM_None, Exists_exists.
  by exists (Str s).
Qed.

Lemma load_data_derive_None raw :
  derive_metrics raw = None → load_data raw = None.
Proof. intros Hd. unfold load_data. by rewrite Hd. Qed.
End LoaderMore.

(** X1.  The loaded table is in date order: its index is the index of
    the file rearranged, non-decreasing, and every column the loader does
    not write is the file's column rearranged the same way (with the
    infinities replaced), so that rows stay together. *)
Theorem load_data_sorted_by_date `{IndexSort} (raw df : frame) :
  load_data raw = Some df →
  Permutation (index df) (index raw) ∧
  StronglySorted Z.le (dt_key <$> index df) ∧
  index df = gather (argsort true (dt_key <$> index raw)) (index raw) ∧
  ∀ c, c ∉ time_cols → c ∉ key_cols →
    get c df
    = (λ col, replace_col (gather (argsort true (dt_key <$> index raw)) col))
        <$> get c raw.
Proof.
  intros Hl. pose proof (load_data_index _ _ Hl) as Hix.
  split.
  { rewrite Hix. apply gather_argsort_perm.
    rewrite <- (length_fmap dt_key (index raw)). apply argsort_perm. }
  split.
  { rewrite Hix, <- gather_fmap. apply (argsort_sorted true). }
  split; [done|].
  intros c Htime Hkey.
  destruct (load_data_get _ _ c Hl) as (d & Hd & _ & Hget).
  rewrite decide_False in Hget by done. rewrite Hget.
  destruct (derive_metrics_inv _ _ Hd) as (d1 & d2 & d3 & d4 & H1 & H2 & H3 & H4 & ->).
  destruct (derive_distance_set _ _ H1) as [? ->].
  destruct (derive_time_set _ _ H2) as [? ->].
  destruct (derive_elevation_set _ _ H3) as [? ->].
  destruct (derive_speed_set _ _ H4) as [? ->].
  unfold key_cols in Hkey.
  repeat (apply not_elem_of_cons in Hkey as [? Hkey]).
  rewrite derive_calories_ne by done.
  rewrite !get_set_ne by done. rewrite get_sorted_source by done.
  by destruct (get c raw).
Qed.

Lemma load_data_sorted_by_date_witness :
  ∃ df, load_data (H := stable_sort) sample_raw = Some df ∧
    Permutation (index df) (index sample_raw) ∧
    StronglySorted Z.le (dt_key <$> index df) ∧
    index df
    = gather (argsort (IndexSort := stable_sort) true
                (dt_key <$> index sample_raw)) (index sample_raw) ∧
    ∀ c, c ∉ time_cols → c ∉ key_cols →
      get c df
      = (λ col, replace_col
                  (gather (argsort (IndexSort := stable_sort) true
                             (dt_key <$> index sample_raw)) col))
          <$> get c sample_raw.
Proof.
  exists (loaded sample_raw). split; [vm_compute; reflexivity|].
  apply (load_data_sorted_by_date (H := stable_sort) sample_raw).
  vm_compute. reflexivity.
Defined.

(** X2.  A file whose columns all have one cell per row is loaded as a
    table of the same kind with the same number of rows: the loader
    neither drops nor adds a row. *)
Theorem load_data_keeps_rows `{IndexSort} (raw df : frame) :
  well_formed raw → load_data raw = Some df →
  well_formed df ∧ nrows df = nrows raw.
Proof.
  intros Hwf Hl. split; [by eapply well_formed_load_data|].
  unfold nrows. rewrite (load_data_index _ _ Hl).
  apply gather_length_perm.
  rewrite <- (length_fmap dt_key (index raw)). apply argsort_perm.
Qed.

Lemma load_data_keeps_rows_witness :
  ∃ df, well_formed sample_raw ∧
    load_data (H := stable_sort) sample_raw = Some df ∧
    well_formed df ∧ nrows df = nrows sample_raw.
Proof.
  exists (loaded sample_raw).
  assert (Hwf : well_formed sample_raw)
    by (apply well_formed_check; vm_compute; reflexivity).
  split; [exact Hwf|].
  split; [vm_compute; reflexivity|].
  apply (load_data_keeps_rows (H := stable_sort) sample_raw); [exact Hwf|].
  vm_compute. reflexivity.
Defined.

(** X3.  The loader returns a table for every file whose source columns
    ['Distance.1'], ['Distance'], ['Moving Time'] and ['Average Speed'],
    where present, hold numbers (missing values included): zero moving
    times, missing values and infinities raise nothing. *)
Theorem load_data_returns_on_numbers `{IndexSort} (raw : frame) :
  numeric_sources raw → ∃ df, load_data raw = Some df.
Proof. intros Hnum. by apply load_data_total. Qed.

Lemma load_data_returns_on_numbers_witness :
  numeric_sources sample_raw ∧
  ∃ df, load_data (H := stable_sort) sample_raw = Some df.
Proof.
  assert (Hnum : numeric_sources sample_raw).
  { intros c col Hc. unfold source_cols in Hc.
    repeat (apply elem_of_cons in Hc as [->|Hc]);
      [| | | |by apply elem_of_nil in Hc];
      vm_compute; intros [= <-] || intros [=]; repeat constructor. }
  split; [exact Hnum|].
  apply (load_data_returns_on_numbers (H := stable_sort) sample_raw Hnum).
Defined.

(** X4.  A text cell in ['Distance.1'], ['Moving Time'] or
    ['Average Speed'] makes the loader fail: the division or the
    multiplication of that column raises [TypeError] and no table is
    returned. *)
Theorem load_data_raises_on_text `{IndexSort} (raw : frame) (c : string)
    (col : list cell) (s : string) :
  c ∈ ["Distance.1"; "Moving Time"; "Average Speed"]%string →
  get c raw = Some col → length col = nrows raw → Str s ∈ col →
  load_data raw = None.
Proof.
  intros Hc Hget Hlen Hin. apply load_data_derive_None.
  set (A := argsort true (dt_key <$> index raw)).
  assert (Hperm : Permutation A (seq 0 (length col))).
  { unfold A. rewrite Hlen. unfold nrows.
    rewrite <- (length_fmap dt_key (index raw)). apply argsort_perm. }
  assert (Hin' : Str s ∈ gather A col)
    by by rewrite (gather_argsort_perm _ _ Hperm).
  assert (Hsrc : get c (add_time_components (sort_index true raw))
                 = Some (gather A col)).
  { rewrite get_sorted_source, Hget; [done|].
    repeat (apply elem_of_cons in Hc as [->|Hc]); [compute_done..|].
    by apply elem_of_nil in Hc. }
  unfold derive_metrics.
  set (d0 := add_time_components (sort_index true raw)) in *.
  destruct (derive_distance d0) as [d1|] eqn:H1; [|done]. cbn.
  destruct (derive_time d1) as [d2|] eqn:H2; [|done]. cbn.
  destruct (derive_elevation d2) as [d3|] eqn:H3; [|done]. cbn.
  destruct (derive_speed d3) as [d4|] eqn:H4; [|done]. exfalso.
  destruct (derive_distance_set _ _ H1) as [km ->].
  destruct (derive_time_set _ _ H2) as [hr ->].
  destruct (derive_elevation_set _ _ H3) as [el ->].
  repeat (apply elem_of_cons in Hc as [->|Hc]).
  - unfold derive_distance in H1.
    assert (has "Distance.1" d0 = true) as Hh by (apply has_true; eauto).
    rewrite Hh, Hsrc in H1. cbn in H1.
    by rewrite (series_div_text _ _ _ Hin') in H1.
  - unfold derive_time in H2.
    assert (get "Moving Time" (set "Distance_km" km d0) = Some (gather A col))
      as Hm by by rewrite get_set_ne.
    assert (has "Moving Time" (set "Distance_km" km d0) = true) as Hh
      by (apply has_true; eauto).
    rewrite Hh, Hm in H2. cbn in H2.
    by rewrite (series_div_text _ _ _ Hin') in H2.
  - unfold derive_speed in H4.
    set (d3 := set "Elevation_Gain_m" el
                 (set "Moving_Time_hr" hr (set "Distance_km" km d0))) in *.
    assert (get "Average Speed" d3 = Some (gather A col))
      as Hm by (unfold d3; by rewrite !get_set_ne).
    assert (has "Average Speed" d3 = true) as Hh by (apply has_true; eauto).
    rewrite Hh, Hm in H4. cbn in H4.
    by rewrite (series_mul_text _ _ _ Hin') in H4.
  - by apply elem_of_nil in Hc.
Qed.

(** * The unit conversions of the loader *)

Section ConversionFacts.
Context `{IndexSort}.
Implicit Types (df raw : frame) (c : string) (col : list cell).

(** The four derived columns of a loaded table, and the frames they were
    derived on. *)
Lemma load_data_inv raw df :
  load_data raw = Some df →
  ∃ km hr el kmh,
    derive_distance (add_time_components (sort_index true raw))
    = Some (set "Distance_km" km (add_time_components (sort_index true raw))) ∧
    derive_time (set "Distance_km" km (add_time_components (sort_index true raw)))
    = Some (set "Moving_Time_hr" hr
              (set "Distance_km" km (add_time_components (sort_index true raw)))) ∧
    derive_speed
      (set "Elevation_Gain_m" el
         (set "Moving_Time_hr" hr
            (set "Distance_km" km (add_time_components (sort_index true raw)))))
    = Some (set "Average_Speed_kmh" kmh
              (set "Elevation_Gain_m" el
                 (set "Moving_Time_hr" hr
                    (set "Distance_km" km
                       (add_time_components (sort_index true raw)))))) ∧
    get "Distance_km" df = Some (clean_col km) ∧
    get "Moving_Time_hr" df = Some (clean_col hr) ∧
    get "Average_Speed_kmh" df = Some (clean_col kmh).
Proof.
  intros Hl.
  destruct (load_data_get _ _ "Distance_km" Hl) as (d & Hd & _ & Hkm).
  destruct (load_data_get _ _ "Moving_Time_hr" Hl) as (d' & Hd' & _ & Hhr).
  destruct (load_data_get _ _ "Average_Speed_kmh" Hl) as (d'' & Hd'' & _ & Hsp).
  assert (d' = d) by congruence. assert (d'' = d) by congruence. subst d' d''.
  rewrite decide_True in Hkm by compute_done.
  rewrite decide_True in Hhr by compute_done.
  rewrite decide_True in Hsp by compute_done.
  destruct (derive_metrics_inv _ _ Hd) as (d1 & d2 & d3 & d4 & H1 & H2 & H3 & H4 & ->).
  destruct (derive_distance_set _ _ H1) as [km ->].
  destruct (derive_time_set _ _ H2) as [hr ->].
  destruct (derive_elevation_set _ _ H3) as [el ->].
  destruct (derive_speed_set _ _ H4) as [kmh ->].
  exists km, hr, el, kmh.
  rewrite derive_calories_ne in Hkm, Hhr, Hsp by done.
  rewrite get_set_eq in Hsp.
  rewrite !get_set_ne, get_set_eq in Hhr by done.
  rewrite !get_set_ne in Hkm by done. rewrite get_set_eq in Hkm.
  done.
Qed.

Lemma derive_distance_inv df km :
  derive_distance df = Some (set "Distance_km" km df) →
  (∀ m, get "Distance.1" df = Some m → series_div m (of_Z 1000) = Some km) ∧
  (get "Distance.1" df = None →
   ∀ src, get "Distance" df = Some src → km = src) ∧
  (get "Distance.1" df = None → get "Distance" df = None →
   km = broadcast df (Num zero)).
Proof.
  intros Hd.
  assert (Hkm : ∀ km', derive_distance df = Some (set "Distance_km" km' df) →
            km' = km).
  { intros km' Hd'. rewrite Hd in Hd'. injection Hd' as Heq.
    apply (f_equal (λ m, m !! "Distance_km"%string)) in Heq.
    rewrite !lookup_insert_eq in Heq. congruence. }
  unfold derive_distance in *.
  destruct (has "Distance.1" df) eqn:Hh1.
  - apply has_true in Hh1 as [m Hm]. rewrite Hm in *. cbn in *.
    destruct (series_div m (of_Z 1000)) as [km'|] eqn:Hdiv; [|done]. cbn in *.
    rewrite <- (Hkm km' eq_refl). split; [|done]. intros m' [= <-]. done.
  - apply has_false in Hh1. rewrite Hh1.
    destruct (has "Distance" df) eqn:Hh2.
    + apply has_true in Hh2 as [src Hsrc]. rewrite Hsrc in *. cbn in *.
      rewrite <- (Hkm src eq_refl). split; [done|]. split; [|done].
      intros _ src' [= <-]. done.
    + apply has_false in Hh2. rewrite Hh2. rewrite <- (Hkm _ eq_refl). done.
Qed.

Lemma derive_speed_provided df kmh ms :
  derive_speed df = Some (set "Average_Speed_kmh" kmh df) →
  get "Average Speed" df = Some ms →
  series_mul ms (of_Q (36 # 10)) = Some kmh.
Proof.
  intros Hd Hms. unfold derive_speed in Hd.
  assert (has "Average Speed" df = true) as Hh by (apply has_true; eauto).
  rewrite Hh, Hms in Hd. cbn in Hd.
  destruct (series_mul ms (of_Q (36 # 10))) as [kmh'|]; [|done]. cbn in Hd.
  injection Hd as Heq.
  apply (f_equal (λ m, m !! "Average_Speed_kmh"%string)) in Heq.
  rewrite !lookup_insert_eq in Heq. congruence.
Qed.
End ConversionFacts.

Section ConversionMore.
Context `{IndexSort}.
Implicit Types (df raw : frame) (c : string) (col : list cell).

Lemma series_div_lookup col k out i x :
  series_div col k = Some out → col !! i = Some (Num x) →
  out !! i = Some (Num (Number.div x k)).
Proof.
  intros Hm Hi. apply mapM_Some_1 in Hm.
  destruct (Forall2_lookup_l _ _ _ _ _ Hm Hi) as (y & Hy & Hdiv).
  cbn in Hdiv. by injection Hdiv as <-.
Qed.

Lemma series_mul_lookup col k out i x :
  series_mul col k = Some out → col !! i = Some (Num x) →
  out !! i = Some (Num (Number.mul x k)).
Proof.
  intros Hm Hi. apply mapM_Some_1 in Hm.
  destruct (Forall2_lookup_l _ _ _ _ _ Hm Hi) as (y & Hy & Hmul).
  cbn in Hmul. by injection Hmul as <-.
Qed.

Lemma nrows_sorted_source raw df :
  load_data raw = Some df →
  nrows (add_time_components (sort_index true raw)) = nrows df.
Proof.
  intros Hl. destruct (load_data_get _ _ "Year" Hl) as (d & Hd & Hix & _).
  unfold nrows. rewrite Hix, (derive_metrics_index _ _ Hd). done.
Qed.

Lemma clean_col_lookup col i v :
  col !! i = Some v → clean_col col !! i = Some (clean v).
Proof. intros Hv. unfold clean_col. by rewrite list_lookup_fmap, Hv. Qed.
End ConversionMore.

(** X5.  Distance in kilometres.  Where the file has ['Distance.1'] the
    distance is that column over 1000, whether or not there is a
    ['Distance'] column as well; otherwise it is ['Distance'] as it
    stands; otherwise 0 on every row.  In each case NaN and the infinities
    end up as 0. *)
Theorem distance_prefers_meters `{IndexSort} (raw df : frame) :
  load_data raw = Some df →
  ∃ dist,
    get "Distance_km" df = Some dist ∧
    (∀ m, get "Distance.1" raw = Some m →
       ∀ i x, gather (argsort true (dt_key <$> index raw)) m !! i
              = Some (Num x) →
         dist !! i = Some (clean (Num (Number.div x (of_Z 1000))))) ∧
    (get "Distance.1" raw = None →
     ∀ km, get "Distance" raw = Some km →
       dist = clean_col (gather (argsort true (dt_key <$> index raw)) km)) ∧
    (get "Distance.1" raw = None → get "Distance" raw = None →
     dist = replicate (nrows df) (Num zero)).
Proof.
  intros Hl.
  destruct (load_data_inv _ _ Hl) as (km & hr & el & kmh & H1 & _ & _ & Hkm & _).
  destruct (derive_distance_inv _ _ H1) as (Hm & Hsrc & Hnone).
  rewrite !get_sorted_source in Hm, Hsrc, Hnone by compute_done.
  exists (clean_col km). split; [done|]. split; [|split].
  - intros m Hget i x Hi. rewrite Hget in Hm.
    apply clean_col_lookup. eapply series_div_lookup; [|exact Hi].
    by apply Hm.
  - intros Hno src Hget.
    rewrite (get_sorted_source "Distance") in Hsrc by compute_done.
    rewrite Hno, Hget in Hsrc. by rewrite (Hsrc eq_refl _ eq_refl).
  - intros Hno1 Hno2.
    rewrite (get_sorted_source "Distance") in Hnone by compute_done.
    rewrite Hno1, Hno2 in Hnone. rewrite (Hnone eq_refl eq_refl).
    unfold broadcast. rewrite clean_col_zeros.
    by rewrite (nrows_sorted_source _ _ Hl).
Qed.

(** X6.  Moving time in hours: ['Moving Time'] over 3600 where the file
    has the column, 0 on every row where it has not; the column holds
    numbers only. *)
Theorem moving_time_in_hours `{IndexSort} (raw df : frame) :
  load_data raw = Some df →
  ∃ time,
    get "Moving_Time_hr" df = Some time ∧
    Forall (λ v, is_num v = true) time ∧
    (∀ s, get "Moving Time" raw = Some s →
       ∀ i x, gather (argsort true (dt_key <$> index raw)) s !! i
              = Some (Num x) →
         time !! i = Some (clean (Num (Number.div x (of_Z 3600))))) ∧
    (get "Moving Time" raw = None →
     time = replicate (nrows df) (Num zero)).
Proof.
  intros Hl.
  destruct (load_data_inv _ _ Hl) as (km & hr & el & kmh & _ & H2 & _ & _ & Hhr & _).
  destruct (derive_time_inv _ _ H2) as (hr' & Heq & Hnum & Hdiv).
  assert (hr' = hr) as ->.
  { injection Heq as Heq.
    apply (f_equal (λ m, m !! "Moving_Time_hr"%string)) in Heq.
    rewrite !lookup_insert_eq in Heq. congruence. }
  assert (Hsrc : get "Moving Time"
                   (set "Distance_km" km (add_time_components (sort_index true raw)))
                 = gather (argsort true (dt_key <$> index raw))
                     <$> get "Moving Time" raw).
  { rewrite get_set_ne by done. apply get_sorted_source. compute_done. }
  exists (clean_col hr). split; [done|]. split; [|split].
  - unfold clean_col. apply Forall_fmap. eapply Forall_impl; [exact Hnum|].
    intros [[]|]; done.
  - intros s Hget i x Hi. apply clean_col_lookup.
    eapply series_div_lookup; [|exact Hi]. apply Hdiv.
    by rewrite Hsrc, Hget.
  - intros Hno. unfold derive_time in H2.
    assert (has "Moving Time"
              (set "Distance_km" km (add_time_components (sort_index true raw)))
            = false) as Hh by (apply has_false; by rewrite Hsrc, Hno).
    rewrite Hh in H2. injection H2 as Heq2.
    apply (f_equal (λ m, m !! "Moving_Time_hr"%string)) in Heq2.
    rewrite !lookup_insert_eq in Heq2. injection Heq2 as <-.
    unfold broadcast. rewrite clean_col_zeros. f_equal.
    rewrite <- (nrows_sorted_source _ _ Hl). done.
Qed.

(** X7.  A provided speed wins.  Where the file has ['Average Speed'] the
    speed is that column times 3.6 and nothing is derived from distance
    and time: a row keeps its provided speed whatever its moving time. *)
Theorem provided_speed_in_kmh `{IndexSort} (raw df : frame) (ms : list cell) :
  load_data raw = Some df →
  get "Average Speed" raw = Some ms →
  ∃ speed,
    get "Average_Speed_kmh" df = Some speed ∧
    ∀ i x, gather (argsort true (dt_key <$> index raw)) ms !! i = Some (Num x) →
      speed !! i = Some (clean (Num (Number.mul x (of_Q (36 # 10))))).
Proof.
  intros Hl Hms.
  destruct (load_data_inv _ _ Hl) as (km & hr & el & kmh & _ & _ & H4 & _ & _ & Hsp).
  exists (clean_col kmh). split; [done|].
  intros i x Hi. apply clean_col_lookup.
  eapply series_mul_lookup; [|exact Hi].
  eapply derive_speed_provided; [exact H4|].
  rewrite !get_set_ne by done. rewrite get_sorted_source by compute_done.
  by rewrite Hms.
Qed.

(** X9.  Calories: the file's column with NaN and the infinities replaced
    by 0, or 0 on every row where the file has no such column. *)
Theorem calories_kept_or_zero `{IndexSort} (raw df : frame) :
  load_data raw = Some df →
  ∃ cal,
    get "Calories" df = Some cal ∧
    (∀ src, get "Calories" raw = Some src →
       cal = clean_col (gather (argsort true (dt_key <$> index raw)) src)) ∧
    (get "Calories" raw = None → cal = replicate (nrows df) (Num zero)).
Proof.
  intros Hl.
  destruct (load_data_get _ _ "Calories" Hl) as (d & Hd & Hix & Hcal).
  rewrite decide_True in Hcal by compute_done.
  pose proof (derive_metrics_index _ _ Hd) as Hixd.
  destruct (derive_metrics_inv _ _ Hd) as (d1 & d2 & d3 & d4 & H1 & H2 & H3 & H4 & ->).
  destruct (derive_distance_set _ _ H1) as [km ->].
  destruct (derive_time_set _ _ H2) as [hr ->].
  destruct (derive_elevation_set _ _ H3) as [el ->].
  destruct (derive_speed_set _ _ H4) as [kmh ->].
  set (d4 := set "Average_Speed_kmh" kmh
               (set "Elevation_Gain_m" el
                  (set "Moving_Time_hr" hr
                     (set "Distance_km" km
                        (add_time_components (sort_index true raw)))))) in *.
  assert (Hsrc : get "Calories" d4
                 = gather (argsort true (dt_key <$> index raw))
                     <$> get "Calories" raw).
  { unfold d4. rewrite !get_set_ne by done. apply get_sorted_source.
    compute_done. }
  unfold derive_calories in Hcal, Hix, Hixd.
  destruct (get "Calories" raw) as [src|] eqn:Hraw.
  - assert (has "Calories" d4 = true) as Hh
      by (apply has_true; rewrite Hsrc; eauto).
    rewrite Hh in Hcal. rewrite Hsrc in Hcal. cbn in Hcal.
    eexists. split; [exact Hcal|]. split; [|done]. by intros src' [= <-].
  - assert (has "Calories" d4 = false) as Hh
      by (apply has_false; by rewrite Hsrc).
    rewrite Hh in Hcal, Hix, Hixd. rewrite get_set_eq in Hcal. cbn in Hcal.
    eexists. split; [exact Hcal|]. split; [done|]. intros _.
    unfold broadcast. rewrite clean_col_zeros. f_equal.
    unfold nrows. by rewrite Hix.
Qed.

Lemma load_data_raises_on_text_witness :
  "Distance.1"%string ∈ ["Distance.1"; "Moving Time"; "Average Speed"]%string ∧
  get "Distance.1" text_raw = Some [Str "8,000"; Num (of_Z 5000)] ∧
  length [Str "8,000"; Num (of_Z 5000)] = nrows text_raw ∧
  Str "8,000" ∈ [Str "8,000"; Num (of_Z 5000)] ∧
  load_data (H := stable_sort) text_raw = None.
Proof.
  split; [compute_done|]. split; [reflexivity|]. split; [reflexivity|].
  split; [apply list_elem_of_here|].
  apply (load_data_raises_on_text (H := stable_sort) text_raw "Distance.1"
           [Str "8,000"; Num (of_Z 5000)] "8,000").
  - compute_done.
  - reflexivity.
  - reflexivity.
  - apply list_elem_of_here.
Defined.

Lemma distance_prefers_meters_witness :
  ∃ df, load_data (H := stable_sort) speed_raw = Some df ∧
    ∃ dist,
      get "Distance_km" df = Some dist ∧
      (∀ m, get "Distance.1" speed_raw = Some m →
         ∀ i x, gather (argsort (IndexSort := stable_sort) true
                          (dt_key <$> index speed_raw)) m !! i
                = Some (Num x) →
           dist !! i = Some (clean (Num (Number.div x (of_Z 1000))))) ∧
      (get "Distance.1" speed_raw = None →
       ∀ km, get "Distance" speed_raw = Some km →
         dist = clean_col (gather (argsort (IndexSort := stable_sort) true
                                     (dt_key <$> index speed_raw)) km)) ∧
      (get "Distance.1" speed_raw = None → get "Distance" speed_raw = None →
       dist = replicate (nrows df) (Num zero)).
Proof.
  exists (loaded speed_raw). split; [vm_compute; reflexivity|].
  apply (distance_prefers_meters (H := stable_sort) speed_raw).
  vm_compute. reflexivity.
Defined.

Lemma moving_time_in_hours_witness :
  ∃ df, load_data (H := stable_sort) speed_raw = Some df ∧
    ∃ time,
      get "Moving_Time_hr" df = Some time ∧
      Forall (λ v, is_num v = true) time ∧
      (∀ s, get "Moving Time" speed_raw = Some s →
         ∀ i x, gather (argsort (IndexSort := stable_sort) true
                          (dt_key <$> index speed_raw)) s !! i
                = Some (Num x) →
           time !! i = Some (clean (Num (Number.div x (of_Z 3600))))) ∧
      (get "Moving Time" speed_raw = None →
       time = replicate (nrows df) (Num zero)).
Proof.
  exists (loaded speed_raw). split; [vm_compute; reflexivity|].
  apply (moving_time_in_hours (H := stable_sort) speed_raw).
  vm_compute. reflexivity.
Defined.

Lemma provided_speed_in_kmh_witness :
  ∃ df ms, load_data (H := stable_sort) speed_raw = Some df ∧
    get "Average Speed" speed_raw = Some ms ∧
    ∃ speed,
      get "Average_Speed_kmh" df = Some speed ∧
      ∀ i x, gather (argsort (IndexSort := stable_sort) true
                       (dt_key <$> index speed_raw)) ms !! i = Some (Num x) →
        speed !! i = Some (clean (Num (Number.mul x (of_Q (36 # 10))))).
Proof.
  exists (loaded speed_raw). eexists _. split; [vm_compute; reflexivity|].
  split; [vm_compute; reflexivity|].
  apply (provided_speed_in_kmh (H := stable_sort) speed_raw).
  - vm_compute. reflexivity.
  - vm_compute. reflexivity.
Defined.

Lemma calories_kept_or_zero_witness :
  ∃ df, load_data (H := stable_sort) speed_raw = Some df ∧
    ∃ cal,
      get "Calories" df = Some cal ∧
      (∀ src, get "Calories" speed_raw = Some src →
         cal = clean_col (gather (argsort (IndexSort := stable_sort) true
                                    (dt_key <$> index speed_raw)) src)) ∧
      (get "Calories" speed_raw = None →
       cal = replicate (nrows df) (Num zero)).
Proof.
  exists (loaded speed_raw). split; [vm_compute; reflexivity|].
  apply (calories_kept_or_zero (H := stable_sort) speed_raw).
  vm_compute. reflexivity.
Defined.

(** X10.  Filtering by a year keeps the rows of that year, all of them,
    in their order, and nothing else: the ['Year'] column of the result is
    the ['Year'] column of the table restricted to the cells equal to the
    year, every other column is restricted to the same rows, and the
    result is a well-formed table. *)
Theorem filter_year_keeps_the_year (df filtered : frame) (y : Z)
    (years : list cell) :
  well_formed df →
  get "Year" df = Some years →
  filter_year df (OneYear y) = Some filtered →
  well_formed filtered ∧
  sublist (index filtered) (index df) ∧
  get "Year" filtered
  = Some (filter (λ c, cell_eqb c (Num (of_Z y)) = true) years) ∧
  nrows filtered
  = length (filter (λ c, cell_eqb c (Num (of_Z y)) = true) years) ∧
  ∀ c col, get c df = Some col →
    get c filtered
    = Some (select ((λ c, cell_eqb c (Num (of_Z y))) <$> years) col).
Proof.
  intros Hwf Hyears Hf. cbn in Hf. rewrite Hyears in Hf. cbn in Hf.
  injection Hf as <-.
  split; [by apply well_formed_select_rows|].
  split; [apply select_sublist|].
  split; [by rewrite get_select_rows, Hyears, <- select_own_mask|].
  split.
  - unfold nrows. cbn [index select_rows]. apply length_select_mask.
    exact (Hwf _ _ Hyears).
  - intros c col Hcol. by rewrite get_select_rows, Hcol.
Qed.

(** X11.  Filtering by activity types, unless "All Activities" is among
    them or none is chosen, keeps the rows whose type is one of the
    chosen texts, all of them, in their order: a row without a type is
    dropped. *)
Theorem filter_types_keeps_the_types (df filtered : frame)
    (selected_types : list string) (types : list cell) :
  well_formed df →
  get "Activity Type" df = Some types →
  all_activities ∉ selected_types → selected_types ≠ [] →
  filter_types df selected_types = Some filtered →
  well_formed filtered ∧
  sublist (index filtered) (index df) ∧
  get "Activity Type" filtered
  = Some (filter (λ c, isin selected_types c = true) types) ∧
  Forall (λ c, ∃ s, c = Str s ∧ s ∈ selected_types)
    (filter (λ c, isin selected_types c = true) types) ∧
  nrows filtered
  = length (filter (λ c, isin selected_types c = true) types) ∧
  ∀ c col, get c df = Some col →
    get c filtered = Some (select (isin selected_types <$> types) col).
Proof.
  intros Hwf Htypes Hall Hsome Hf. unfold filter_types in Hf.
  rewrite bool_decide_eq_false_2, bool_decide_eq_false_2 in Hf by done.
  cbn in Hf. rewrite Htypes in Hf. cbn in Hf. injection Hf as <-.
  split; [by apply well_formed_select_rows|].
  split; [apply select_sublist|].
  split; [by rewrite get_select_rows, Htypes, <- select_own_mask|].
  split.
  { apply Forall_forall. intros c [Hc _]%list_elem_of_filter.
    destruct c as [x|s]; [done|]. exists s. split; [done|].
    cbn in Hc. by apply bool_decide_eq_true in Hc. }
  split.
  - unfold nrows. cbn [index select_rows]. apply length_select_mask.
    exact (Hwf _ _ Htypes).
  - intros c col Hcol. by rewrite get_select_rows, Hcol.
Qed.

(** X12.  The two filters in a row are one filter by both conditions,
    both read off the unfiltered table: a row is kept exactly when its
    year is the chosen year and its type one of the chosen types. *)
Theorem df_filtered_keeps_rows_matching_both (df filtered : frame) (y : Z)
    (selected_types : list string) (years types : list cell) :
  well_formed df →
  get "Year" df = Some years →
  get "Activity Type" df = Some types →
  all_activities ∉ selected_types → selected_types ≠ [] →
  df_filtered df (OneYear y) selected_types = Some filtered →
  index filtered
  = select (zip_with andb ((λ c, cell_eqb c (Num (of_Z y))) <$> years)
              (isin selected_types <$> types)) (index df) ∧
  ∀ c col, get c df = Some col →
    get c filtered
    = Some (select (zip_with andb ((λ c, cell_eqb c (Num (of_Z y))) <$> years)
                      (isin selected_types <$> types)) col).
Proof.
  intros Hwf Hyears Htypes Hall Hsome Hf.
  apply df_filtered_inv in Hf as (by_year & options & Hy & _ & Hf).
  cbn in Hy. rewrite Hyears in Hy. cbn in Hy. injection Hy as <-.
  unfold filter_types in Hf.
  rewrite bool_decide_eq_false_2, bool_decide_eq_false_2 in Hf by done.
  cbn in Hf. rewrite get_select_rows, Htypes in Hf. cbn in Hf.
  injection Hf as <-.
  pose proof (Hwf _ _ Hyears) as Hly. pose proof (Hwf _ _ Htypes) as Hlt.
  unfold nrows in Hly, Hlt.
  split.
  - cbn [index select_rows]. apply select_select; [done|].
    by rewrite length_fmap.
  - intros c col Hcol. rewrite !get_select_rows, Hcol. cbn. f_equal.
    pose proof (Hwf _ _ Hcol) as Hlc. unfold nrows in Hlc.
    apply select_select; [congruence|]. rewrite length_fmap. congruence.
Qed.

Lemma filter_year_keeps_the_year_witness :
  ∃ df filtered years,
    load_data (H := stable_sort) sample_raw = Some df ∧
    well_formed df ∧
    get "Year" df = Some years ∧
    filter_year df (OneYear 2023) = Some filtered ∧
    well_formed filtered ∧
    sublist (index filtered) (index df) ∧
    get "Year" filtered
    = Some (filter (λ c, cell_eqb c (Num (of_Z 2023)) = true) years) ∧
    nrows filtered
    = length (filter (λ c, cell_eqb c (Num (of_Z 2023)) = true) years) ∧
    ∀ c col, get c df = Some col →
      get c filtered
      = Some (select ((λ c, cell_eqb c (Num (of_Z 2023))) <$> years) col).
Proof.
  exists (loaded sample_raw).
  exists (default (loaded sample_raw)
            (filter_year (loaded sample_raw) (OneYear 2023))).
  eexists _.
  split; [vm_compute; reflexivity|].
  split; [apply well_formed_check; vm_compute; reflexivity|].
  split; [vm_compute; reflexivity|].
  split; [vm_compute; reflexivity|].
  eapply filter_year_keeps_the_year.
  - apply well_formed_check. vm_compute. reflexivity.
  - vm_compute. reflexivity.
  - vm_compute. reflexivity.
Defined.

Lemma filter_types_keeps_the_types_witness :
  ∃ df filtered types,
    load_data (H := stable_sort) sample_raw = Some df ∧
    well_formed df ∧
    get "Activity Type" df = Some types ∧
    (all_activities ∉ ["Run"%string]) ∧ (["Run"%string] ≠ []) ∧
    filter_types df ["Run"%string] = Some filtered ∧
    well_formed filtered ∧
    sublist (index filtered) (index df) ∧
    get "Activity Type" filtered
    = Some (filter (λ c, isin ["Run"%string] c = true) types) ∧
    Forall (λ c, ∃ s, c = Str s ∧ s ∈ ["Run"%string])
      (filter (λ c, isin ["Run"%string] c = true) types) ∧
    nrows filtered
    = length (filter (λ c, isin ["Run"%string] c = true) types) ∧
    ∀ c col, get c df = Some col →
      get c filtered = Some (select (isin ["Run"%string] <$> types) col).
Proof.
  exists (loaded sample_raw).
  exists (default (loaded sample_raw)
            (filter_types (loaded sample_raw) ["Run"%string])).
  eexists _.
  split; [vm_compute; reflexivity|].
  split; [apply well_formed_check; vm_compute; reflexivity|].
  split; [vm_compute; reflexivity|].
  split; [compute_done|]. split; [done|].
  split; [vm_compute; reflexivity|].
  eapply filter_types_keeps_the_types.
  - apply well_formed_check. vm_compute. reflexivity.
  - vm_compute. reflexivity.
  - compute_done.
  - done.
  - vm_compute. reflexivity.
Defined.

Lemma df_filtered_keeps_rows_matching_both_witness :
  ∃ df filtered years types,
    load_data (H := stable_sort) sample_raw = Some df ∧
    well_formed df ∧
    get "Year" df = Some years ∧
    get "Activity Type" df = Some types ∧
    (all_activities ∉ ["Run"%string]) ∧ (["Run"%string] ≠ []) ∧
    df_filtered df (OneYear 2023) ["Run"%string] = Some filtered ∧
    index filtered
    = select (zip_with andb ((λ c, cell_eqb c (Num (of_Z 2023))) <$> years)
                (isin ["Run"%string] <$> types)) (index df) ∧
    ∀ c col, get c df = Some col →
      get c filtered
      = Some (select (zip_with andb
                        ((λ c, cell_eqb c (Num (of_Z 2023))) <$> years)
                        (isin ["Run"%string] <$> types)) col).
Proof.
  exists (loaded sample_raw).
  exists (default (loaded sample_raw)
            (df_filtered (loaded sample_raw) (OneYear 2023) ["Run"%string])).
  eexists _, _.
  split; [vm_compute; reflexivity|].
  split; [apply well_formed_check; vm_compute; reflexivity|].
  split; [vm_compute; reflexivity|].
  split; [vm_compute; reflexivity|].
  split; [compute_done|]. split; [done|].
  split; [vm_compute; reflexivity|].
  eapply df_filtered_keeps_rows_matching_both.
  - apply well_formed_check. vm_compute. reflexivity.
  - vm_compute. reflexivity.
  - vm_compute. reflexivity.
  - compute_done.
  - done.
  - vm_compute. reflexivity.
Defined.
(** * Groups partition the rows *)

Section BucketFacts.
Context {K A : Type} `{EqDecision K}.
Implicit Types (t : K → K → bool) (key : list K) (l : list A) (Ks : list K).




End BucketFacts.

(** * The breakdown table *)

Section BreakdownFacts.
Context {V : ValueSort}.
Implicit Types (df : frame) (c : string) (col : list cell) (k : cell)
  (r : summary_row) (rows : list summary_row).










End BreakdownFacts.


